(** * ocrmypdf._concurrent: the worker pool, its log listener and its teardown

    A shallow embedding of [src/ocrmypdf/_concurrent.py].

    The Python module runs a batch of tasks on a pool of workers, funnels the
    workers' log records through one queue read by a listener thread, and
    tears the pool down on every way out of the [try] statement.

    Every function of the module is embedded as a computation in a small
    trace-and-exception monad: a computation yields the list of calls it made
    on its collaborators (queue, pool, progress bar, listener thread), in
    program order, together with either a value or the exception it raised.
    What the collaborators answer (whether the progress bar and the pool
    come to be, which task completes next, whether SIGINT arrives, what
    [os.environ] holds) is read from an explicit [world]. *)

From stdpp Require Import gmap strings list.
From Stdlib Require Import ZArith Lia Permutation.

Open Scope string_scope.
Open Scope list_scope.

(** ** Python exceptions *)

(** The exceptions that travel through this module. *)
Inductive exn : Type :=
| KeyboardInterrupt
| SystemExit
| StopIteration
| InputFileError (msg : string)
| AttributeError (msg : string)
| TypeError (msg : string)
| ValueError (msg : string)
| KeyError (msg : string)
| RuntimeError (msg : string).

(** The classes named by the module's [except] clauses. *)
Inductive exc_class : Type :=
| cls_KeyboardInterrupt
| cls_Exception
| cls_StopIteration.

(** Modelled from the spec: the class [InputFileError], imported from
    [ocrmypdf.exceptions], which is not among the sources.  The spec calls it
    a domain error that surfaces as the failure of a task: an ordinary
    [Exception], neither an interrupt nor a [StopIteration]. *)
Definition isinstance_InputFileError (c : exc_class) : bool :=
  match c with
  | cls_Exception => true
  | cls_KeyboardInterrupt | cls_StopIteration => false
  end.

(** [isinstance(e, c)], following Python's hierarchy: [KeyboardInterrupt] and
    [SystemExit] derive from [BaseException] directly, the others derive
    from [Exception]. *)
Definition isinstance (e : exn) (c : exc_class) : bool :=
  match e, c with
  | KeyboardInterrupt, cls_KeyboardInterrupt => true
  | KeyboardInterrupt, _ => false
  | SystemExit, _ => false
  | StopIteration, (cls_StopIteration | cls_Exception) => true
  | StopIteration, cls_KeyboardInterrupt => false
  | InputFileError _, _ => isinstance_InputFileError c
  | (AttributeError _ | TypeError _ | ValueError _ | KeyError _
     | RuntimeError _), cls_Exception => true
  | (AttributeError _ | TypeError _ | ValueError _ | KeyError _
     | RuntimeError _), _ => false
  end.
Arguments isinstance !e !c : simpl nomatch.

(** ** The trace-and-exception monad *)

Inductive result (A : Type) : Type :=
| Ok (a : A)
| Raise (e : exn).
Arguments Ok {A} a.
Arguments Raise {A} e.

Module Eff.

(** A computation over events [E]: the calls made, then the outcome. *)
Definition M (E A : Type) : Type := (list E * result A)%type.

Definition ret {E A} (a : A) : M E A := ([], Ok a).

Definition raise {E A} (e : exn) : M E A := ([], Raise e).

Definition emit {E} (ev : E) : M E unit := ([ev], Ok tt).

Definition lift {E A} (r : result A) : M E A := ([], r).

Definition bind {E A B} (m : M E A) (k : A -> M E B) : M E B :=
  match m with
  | (tr, Ok a) => let '(tr', r) := k a in (tr ++ tr', r)
  | (tr, Raise e) => (tr, Raise e)
  end.

(** The first clause whose class matches the exception. *)
Fixpoint find_clause {E A} (e : exn)
    (clauses : list (exc_class * (exn -> M E A))) : option (M E A) :=
  match clauses with
  | [] => None
  | (c, h) :: rest => if isinstance e c then Some (h e) else find_clause e rest
  end.

(** [try: m  except c1: h1  except c2: h2 ...] *)
Definition try_except {E A} (m : M E A)
    (clauses : list (exc_class * (exn -> M E A))) : M E A :=
  match m with
  | (tr, Ok a) => (tr, Ok a)
  | (tr, Raise e) =>
      match find_clause e clauses with
      | Some (tr', r) => (tr ++ tr', r)
      | None => (tr, Raise e)
      end
  end.

(** [try: m  finally: fin]: [fin] always runs; an exception of [fin]
    replaces the outcome of [m]. *)
Definition try_finally {E A} (m : M E A) (fin : M E unit) : M E A :=
  let '(tr, r) := m in
  let '(tr', r') := fin in
  (tr ++ tr', match r' with Ok _ => r | Raise e => Raise e end).

Definition trace {E A} (m : M E A) : list E := fst m.
Definition outcome {E A} (m : M E A) : result A := snd m.

End Eff.

Import Eff.

Declare Scope eff_scope.
Delimit Scope eff_scope with eff.
Notation "x <- m ;; k" := (bind m (fun x => k))
  (at level 100, m at next level, k at level 200, right associativity)
  : eff_scope.
Notation "m ;; k" := (bind m (fun _ => k))
  (at level 100, k at level 200, right associativity) : eff_scope.
Open Scope eff_scope.

(** What one pass through the body of a [while True] loop asks for. *)
Inductive flow : Type :=
| Continue
| Break.

(** ** The log queue and the listener *)

(** A [logging.LogRecord]: logger name, level, message, metadata. *)
Record log_record : Type := {
  name : string;
  levelno : Z;
  msg : string;
  extra : list (string * string)
}.

(** What [q.get()] can hand to the listener: the sentinel [None], a record,
    or some other object put on the queue, of the type named [type_name]
    (it has no [name] attribute). *)
Inductive qitem : Type :=
| QNone
| QRecord (r : log_record)
| QObject (type_name : string).

(** The message of the [AttributeError] that [record.name] raises on an
    object of a type without that attribute. *)
Definition no_attribute_name (type_name : string) : string :=
  "'" ++ type_name ++ "' object has no attribute 'name'".

(** The listener's calls: dequeuing, handing a record to the named logger,
    and the two diagnostics written to [sys.stderr]. *)
Inductive levent : Type :=
| LsGet (item : qitem)
| LsHandle (logger : string) (r : log_record)
| LsPrintStderr (text : string)
| LsTracebackStderr (e : exn).

(** How a run of the listener over the queue's contents ends. *)
Inductive lstatus : Type :=
| Stopped           (* [break]: the thread returns *)
| Waiting           (* blocked in [q.get()] on an empty queue *)
| Died (e : exn).   (* an exception escaped the loop *)

Section Listener.

(** The main process's logging configuration: what
    [logging.getLogger(name).handle(record)] does. *)
Variable sink : string -> log_record -> result unit.

Definition q_get (item : qitem) : M levent qitem :=
  emit (LsGet item) ;; ret item.

Definition logger_handle (logger : string) (r : log_record) : M levent unit :=
  emit (LsHandle logger r) ;; lift (sink logger r).

(** The body of [while True:] in [log_listener], on the item [q.get()]
    returns. *)
Definition listener_iteration (item : qitem) : M levent flow :=
  try_except
    (record <- q_get item ;;
     match record with
     | QNone => ret Break
     | QRecord r =>
         let logger := name r in
         logger_handle logger r ;;
         ret Continue
     | QObject type_name =>
         raise (AttributeError (no_attribute_name type_name))
     end)
    [ (cls_Exception,
       fun e =>
         emit (LsPrintStderr "Logging problem") ;;
         emit (LsTracebackStderr e) ;;
         ret Continue) ].

(** [log_listener(q)] run against the items the queue delivers, in order. *)
Fixpoint log_listener (q : list qitem) : list levent * lstatus :=
  match q with
  | [] => ([], Waiting)
  | item :: rest =>
      match listener_iteration item with
      | (tr, Ok Break) => (tr, Stopped)
      | (tr, Ok Continue) =>
          let '(tr', st) := log_listener rest in (tr ++ tr', st)
      | (tr, Raise e) => (tr, Died e)
      end
  end.

(** The items the listener took off the queue. *)
Fixpoint dequeued (tr : list levent) : list qitem :=
  match tr with
  | [] => []
  | LsGet item :: tr' => item :: dequeued tr'
  | _ :: tr' => dequeued tr'
  end.

(** The records the listener handed to a logger. *)
Fixpoint handled (tr : list levent) : list log_record :=
  match tr with
  | [] => []
  | LsHandle _ r :: tr' => r :: handled tr'
  | _ :: tr' => handled tr'
  end.

End Listener.

(** ** Python objects used as callbacks *)

(** An object as this module uses it: tested for truth ([if not f]) and
    called ([f(x)]). *)
Record pyobject (A B : Type) : Type := {
  py_bool : bool;
  py_call : A -> B
}.
Arguments py_bool {A B} _.
Arguments py_call {A B} _ _.

(** ** A worker: signal dispositions and logging configuration *)

Inductive signum : Type :=
| SIGINT
| SIGBUS.

#[global] Instance signum_eq_dec : EqDecision signum.
Proof. solve_decision. Defined.

#[global] Instance signum_countable : Countable signum.
Proof.
  refine (inj_countable'
            (fun s => match s with SIGINT => 2%nat | SIGBUS => 7%nat end)
            (fun n => match n with 2%nat => SIGINT | _ => SIGBUS end) _).
  intros []; reflexivity.
Defined.

(** What [signal.signal] installs for a signal. *)
Inductive sigaction : Type :=
| SIG_DFL
| SIG_IGN
| PyHandler (h : signum -> result unit).

Inductive queue_ref : Type :=
| QueueQueue              (* [queue.Queue(-1)] *)
| MultiprocessingQueue.   (* [multiprocessing.Queue(-1)] *)

Inductive log_handler : Type :=
| QueueHandler (q : queue_ref)   (* [logging.handlers.QueueHandler(q)] *)
| LocalHandler (sink : string).  (* any handler writing locally *)

Record worker_state : Type := {
  signal_names : gset signum;              (* attributes of the [signal] module *)
  dispositions : gmap signum sigaction;    (* set by [signal.signal] *)
  sigmask : gset signum;                   (* this thread's blocked signals *)
  root_level : Z;                          (* [logging.getLogger().level] *)
  root_handlers : list log_handler         (* [logging.getLogger().handlers] *)
}.

Definition hasattr_signal (s : signum) (ws : worker_state) : bool :=
  bool_decide (s ∈ signal_names ws).

Definition signal_signal (s : signum) (a : sigaction) (ws : worker_state)
  : worker_state :=
  {| signal_names := signal_names ws;
     dispositions := <[s := a]> (dispositions ws);
     sigmask := sigmask ws;
     root_level := root_level ws;
     root_handlers := root_handlers ws |}.

(** [signal.pthread_sigmask(signal.SIG_BLOCK, mask)] *)
Definition pthread_sigmask_block (mask : gset signum) (ws : worker_state)
  : worker_state :=
  {| signal_names := signal_names ws;
     dispositions := dispositions ws;
     sigmask := sigmask ws ∪ mask;
     root_level := root_level ws;
     root_handlers := root_handlers ws |}.

Definition root_setLevel (lvl : Z) (ws : worker_state) : worker_state :=
  {| signal_names := signal_names ws;
     dispositions := dispositions ws;
     sigmask := sigmask ws;
     root_level := lvl;
     root_handlers := root_handlers ws |}.

Definition root_set_handlers (hs : list log_handler) (ws : worker_state)
  : worker_state :=
  {| signal_names := signal_names ws;
     dispositions := dispositions ws;
     sigmask := sigmask ws;
     root_level := root_level ws;
     root_handlers := hs |}.

Definition root_addHandler (h : log_handler) (ws : worker_state)
  : worker_state :=
  root_set_handlers (root_handlers ws ++ [h]) ws.

(** A per-worker setup callback runs in the worker and may change it. *)
Definition user_callback : Type :=
  pyobject worker_state (result unit * worker_state).

(** [def process_sigbus] with its star-args: whatever it is called with, it
    raises. *)
Definition process_sigbus {A : Type} (args : A) : result unit :=
  Raise (InputFileError "A worker process lost access to an input file").

(** [def process_init(q, user_init, loglevel)] *)
Definition process_init (q : queue_ref) (user_init : user_callback)
    (loglevel : Z) (ws : worker_state) : result unit * worker_state :=
  let ws := signal_signal SIGINT SIG_IGN ws in
  let ws :=
    if hasattr_signal SIGBUS ws
    then signal_signal SIGBUS (PyHandler process_sigbus) ws
    else ws in
  let h := QueueHandler q in
  let ws := root_setLevel loglevel ws in
  let ws := root_set_handlers [] ws in
  let ws := root_addHandler h ws in
  py_call user_init ws.

(** [def thread_init(_queue, user_init, _loglevel)] *)
Definition thread_init (_queue : queue_ref) (user_init : user_callback)
    (_loglevel : Z) (ws : worker_state) : result unit * worker_state :=
  let ws :=
    if hasattr_signal SIGBUS ws
    then pthread_sigmask_block {[ SIGBUS ]} ws
    else ws in
  py_call user_init ws.

(** The thread that gets a signal raised for a worker thread. *)
Inductive thread_ref : Type :=
| ThisThread
| MainThread.

(** Modelled from the spec: which thread gets a SIGBUS raised for a worker
    thread; the operating system decides it, and it is not among the
    sources.  In the spec's words, blocking the signal "for this thread
    specifically" has the fault "instead delivered to - and handled by -
    the main thread". *)
Definition fault_recipient (s : signum) (ws : worker_state) : thread_ref :=
  if bool_decide (s ∈ sigmask ws) then MainThread else ThisThread.

(** ** The dispatcher *)

(** Task arguments and task results. *)
Definition value : Type := string.

Inductive pool_class : Type :=
| ThreadPool     (* [multiprocessing.dummy.Pool] *)
| ProcessPool.   (* [multiprocessing.Pool] *)

(** A worker initializer, as given to the pool with its [initargs]. *)
Definition initializer : Type :=
  queue_ref -> user_callback -> Z -> worker_state -> result unit * worker_state.

(** What a worker of the pool is seen to do. *)
Inductive wevent : Type :=
| WInitializer (r : result unit)   (* the initializer was called, and ended so *)
| WTask (a : value).               (* the task function was called on [a] *)

(** Modelled from the spec: the life of one worker of the pool, which the
    pool classes of [multiprocessing] run and which is not among the
    sources.  In the spec's words a worker is "initialized exactly once
    before executing any task": the initializer is called on the [initargs],
    and after it has returned the tasks handed to this worker are
    executed. *)
Definition pool_worker (init : initializer)
    (initargs : queue_ref * user_callback * Z) (tasks : list value)
    (ws : worker_state) : list wevent * worker_state :=
  let '(q, user_init, loglevel) := initargs in
  let '(r, ws') := init q user_init loglevel ws in
  (WInitializer r :: match r with Ok _ => map WTask tasks | Raise _ => [] end,
   ws').

(** The dispatcher's calls on its collaborators.  [EvTqdmEnter] is the call
    [tqdm(...)] and [EvPool] the call of the pool's constructor, recorded
    whether they return or raise. *)
Inductive event : Type :=
| EvQueue (q : queue_ref)
| EvListenerStart (q : queue_ref)
| EvTqdmEnter (kwargs : gmap string string)
| EvPool (cls : pool_class) (processes : Z) (init : initializer)
         (initargs : queue_ref * user_callback * Z)
| EvImapUnordered (args : list value)
| EvNext
| EvTaskFinished (r : value)
| EvPbarUpdate
| EvPoolTerminate
| EvPutNowait (q : queue_ref) (item : qitem)
| EvPoolClose
| EvPoolJoin
| EvTqdmExit
| EvListenerJoin.

(** What a worker of the pool reports of a task: the value it returned, or
    the exception it raised when that is an [Exception].  Any other
    exception ends the worker, and no result of that task ever reaches the
    iterator. *)
Definition reportable (r : result value) : Prop :=
  match r with
  | Ok _ => True
  | Raise e => isinstance e cls_Exception = true
  end.

(** The keyword arguments of [exec_progress_pool].  The task runs in the
    pool's workers, and [task a] is what the pool reports of it; tasks
    whose outcome a worker does not report are left out here by
    [task_failures]. *)
Record params : Type := {
  use_threads : bool;
  max_workers : Z;
  tqdm_kwargs : gmap string string;
  task_initializer : user_callback;
  task : value -> result value;
  task_arguments : list value;
  task_finished : pyobject value (result unit);
  task_failures : forall a, reportable (task a)
}.

(** What the dispatcher finds around it. *)
Record world : Type := {
  os_environ : gmap string string;
  (** [logging.getLogger("").level] in the dispatching process *)
  dispatcher_loglevel : Z;
  (** what the call [tqdm(...)] raises, if it raises (an unknown keyword
      argument, for one) *)
  tqdm_error : option exn;
  (** what the pool's constructor raises, if it raises (fewer than one
      process asked for; an initializer argument that cannot be pickled
      for a worker process that is spawned) *)
  pool_error : option exn;
  (** the order in which the tasks submitted to a pool complete *)
  finish_order : list value -> list value;
  (** SIGINT reaches the main thread during this call of [results.next()],
      counted from 0, or during the last call if there are fewer *)
  sigint_at : option nat
}.

(** The order in which the submitted tasks complete in this run: none
    completes when no pool came to be. *)
Definition completion_order (w : world) (args : list value) : list value :=
  match tqdm_error w, pool_error w with
  | None, None => finish_order w args
  | _, _ => []
  end.

(** Python's [None], the default of [task_initializer] and of
    [task_finished]: false, and calling it is a [TypeError]. *)
Definition None_initializer : user_callback :=
  {| py_bool := false;
     py_call := fun ws =>
       (Raise (TypeError "'NoneType' object is not callable"), ws) |}.

Definition None_finished : pyobject value (result unit) :=
  {| py_bool := false;
     py_call := fun _ => Raise (TypeError "'NoneType' object is not callable") |}.

(** The nested [def _noop(): return]. *)
Definition _noop : user_callback :=
  {| py_bool := true; py_call := fun ws => (Ok tt, ws) |}.

(** Truth of a Python [str]. *)
Definition str_bool (s : string) : bool :=
  match s with
  | EmptyString => false
  | String _ _ => true
  end.

(** [os.environ.get(key, dflt)] *)
Definition environ_get (env : gmap string string) (key dflt : string) : string :=
  default dflt (env !! key).

(** What one call of [results.next()] meets. *)
Inductive step : Type :=
| Completed (a : value)   (* the task on [a] is the next to complete *)
| Interrupted.            (* SIGINT arrives while waiting *)

(** The iterator [pool.imap_unordered(task, task_arguments)]: the tasks in
    completion order, cut short where SIGINT arrives. *)
Definition imap_unordered (w : world) (args : list value) : list step :=
  let done := map Completed (completion_order w args) in
  match sigint_at w with
  | None => done
  | Some k => take k done ++ [Interrupted]
  end.

Section Dispatcher.

Variable task_ : value -> result value.
Variable task_finished_ : pyobject value (result unit).

(** [results.next()]: the value of the next completed task, the exception
    that task raised, or [StopIteration] when no task is left. *)
Definition results_next (it : list step) : M event value :=
  emit EvNext ;;
  match it with
  | [] => raise StopIteration
  | Completed a :: _ => lift (task_ a)
  | Interrupted :: _ => raise KeyboardInterrupt
  end.

Definition call_task_finished (r : value) : M event unit :=
  emit (EvTaskFinished r) ;; lift (py_call task_finished_ r).

Definition pbar_update : M event unit := emit EvPbarUpdate.

(** The body of the inner [while True:], on the current iterator. *)
Definition loop_iteration (it : list step) : M event flow :=
  try_except
    (result <- results_next it ;;
     (if py_bool task_finished_
      then call_task_finished result
      else pbar_update) ;;
     ret Continue)
    [ (cls_StopIteration, fun _ => ret Break) ].

(** The inner [while True:] loop.  An exhausted iterator raises
    [StopIteration], so the loop never continues past the last step. *)
Fixpoint pull_results (it : list step) : M event unit :=
  fl <- loop_iteration it ;;
  match fl, it with
  | Continue, _ :: rest => pull_results rest
  | _, _ => ret tt
  end.

End Dispatcher.

(** [tqdm(...)], the keyword arguments unpacked from [tqdm_kwargs]. *)
Definition tqdm_new (w : world) (kwargs : gmap string string) : M event unit :=
  emit (EvTqdmEnter kwargs) ;;
  match tqdm_error w with
  | Some e => raise e
  | None => ret tt
  end.

(** [with tqdm(...) as pbar: body]: the bar is closed on every way out of
    the body, and not at all when [tqdm(...)] itself raised. *)
Definition with_tqdm {A} (w : world) (kwargs : gmap string string)
    (body : M event A) : M event A :=
  tqdm_new w kwargs ;;
  try_finally body (emit EvTqdmExit).

(** [pool_class(processes=..., initializer=..., initargs=...)] *)
Definition pool_new (w : world) (cls : pool_class) (processes : Z)
    (init : initializer) (initargs : queue_ref * user_callback * Z)
  : M event unit :=
  emit (EvPool cls processes init initargs) ;;
  match pool_error w with
  | Some e => raise e
  | None => ret tt
  end.

(** [try: m  except ...: ...  finally: fin] *)
Definition try_except_finally {E A} (m : M E A)
    (clauses : list (exc_class * (exn -> M E A))) (fin : M E unit) : M E A :=
  try_finally (try_except m clauses) fin.

(** [def exec_progress_pool], all of whose arguments are keyword-only:
    [use_threads], [max_workers], [tqdm_kwargs], [task_initializer], [task],
    [task_arguments], [task_finished]. *)
Definition exec_progress_pool (p : params) (w : world) : M event unit :=
  let '(log_queue, pool_class_, initializer_) :=
    if use_threads p
    then (QueueQueue, ThreadPool, thread_init)
    else (MultiprocessingQueue, ProcessPool, process_init) in
  emit (EvQueue log_queue) ;;
  let task_initializer_ :=
    if negb (py_bool (task_initializer p)) then _noop else task_initializer p in
  emit (EvListenerStart log_queue) ;;
  with_tqdm w (tqdm_kwargs p)
    (pool_new w pool_class_ (max_workers p) initializer_
       (log_queue, task_initializer_, dispatcher_loglevel w) ;;
     try_except_finally
       (emit (EvImapUnordered (task_arguments p)) ;;
        let results := imap_unordered w (task_arguments p) in
        pull_results (task p) (task_finished p) results)
       [ (cls_KeyboardInterrupt,
          fun e => emit EvPoolTerminate ;; raise e);
         (cls_Exception,
          fun e =>
            (if negb (str_bool (environ_get (os_environ w) "PYTEST_CURRENT_TEST" ""))
             then emit EvPoolTerminate
             else ret tt) ;;
            raise e) ]
       (emit (EvPutNowait log_queue QNone) ;;
        emit EvPoolClose ;;
        emit EvPoolJoin)) ;;
  emit EvListenerJoin.

(** ** Reading traces *)

Definition is_task_finished (ev : event) : bool :=
  match ev with EvTaskFinished _ => true | _ => false end.

Definition is_pbar_update (ev : event) : bool :=
  match ev with EvPbarUpdate => true | _ => false end.

Definition is_sentinel_put (ev : event) : bool :=
  match ev with EvPutNowait _ QNone => true | _ => false end.

Definition is_pool_join (ev : event) : bool :=
  match ev with EvPoolJoin => true | _ => false end.

Definition is_pool_terminate (ev : event) : bool :=
  match ev with EvPoolTerminate => true | _ => false end.

Definition is_listener_join (ev : event) : bool :=
  match ev with EvListenerJoin => true | _ => false end.

Definition is_listener_start (ev : event) : bool :=
  match ev with EvListenerStart _ => true | _ => false end.

Definition is_pool_close (ev : event) : bool :=
  match ev with EvPoolClose => true | _ => false end.

Definition is_pool_new (ev : event) : bool :=
  match ev with EvPool _ _ _ _ => true | _ => false end.

Definition is_initializer (ev : wevent) : bool :=
  match ev with WInitializer _ => true | _ => false end.

(** The calls made from inside the result loop. *)
Definition is_loop_event (ev : event) : bool :=
  match ev with
  | EvNext | EvTaskFinished _ | EvPbarUpdate => true
  | _ => false
  end.

(** How many events of a trace satisfy [f]. *)
Fixpoint count {E : Type} (f : E -> bool) (tr : list E) : nat :=
  match tr with
  | [] => 0
  | ev :: tr' => (if f ev then 1 else 0) + count f tr'
  end.

(** The results handed to the completion callback, in order. *)
Fixpoint finished_values (tr : list event) : list value :=
  match tr with
  | [] => []
  | EvTaskFinished r :: tr' => r :: finished_values tr'
  | _ :: tr' => finished_values tr'
  end.

(** The queue, the pool class and the initializer chosen by [use_threads]. *)
Definition log_queue_of (p : params) : queue_ref :=
  if use_threads p then QueueQueue else MultiprocessingQueue.

Definition pool_class_of (p : params) : pool_class :=
  if use_threads p then ThreadPool else ProcessPool.

Definition initializer_of (p : params) : initializer :=
  if use_threads p then thread_init else process_init.

(** The callback the pool is given for its workers. *)
Definition worker_callback_of (p : params) : user_callback :=
  if py_bool (task_initializer p) then task_initializer p else _noop.

(** The calls up to the start of the result loop. *)
Definition prologue (p : params) (w : world) : list event :=
  [ EvQueue (log_queue_of p);
    EvListenerStart (log_queue_of p);
    EvTqdmEnter (tqdm_kwargs p);
    EvPool (pool_class_of p) (max_workers p) (initializer_of p)
      (log_queue_of p, worker_callback_of p, dispatcher_loglevel w);
    EvImapUnordered (task_arguments p) ].

(** The calls of a run in which [tqdm(...)] raises. *)
Definition tqdm_failed_calls (p : params) : list event :=
  [ EvQueue (log_queue_of p);
    EvListenerStart (log_queue_of p);
    EvTqdmEnter (tqdm_kwargs p) ].

(** The calls of a run in which the pool's constructor raises. *)
Definition pool_failed_calls (p : params) (w : world) : list event :=
  [ EvQueue (log_queue_of p);
    EvListenerStart (log_queue_of p);
    EvTqdmEnter (tqdm_kwargs p);
    EvPool (pool_class_of p) (max_workers p) (initializer_of p)
      (log_queue_of p, worker_callback_of p, dispatcher_loglevel w);
    EvTqdmExit ].

(** The calls of the [finally] block. *)
Definition teardown (p : params) : list event :=
  [ EvPutNowait (log_queue_of p) QNone; EvPoolClose; EvPoolJoin ].

(** [PYTEST_CURRENT_TEST] is set to a non-empty string. *)
Definition inside_pytest (w : world) : bool :=
  str_bool (environ_get (os_environ w) "PYTEST_CURRENT_TEST" "").

(** The calls of the [except] clause entered for [e], if any. *)
Definition except_events (w : world) (e : exn) : list event :=
  if isinstance e cls_KeyboardInterrupt then [EvPoolTerminate]
  else if isinstance e cls_Exception
       then (if inside_pytest w then [] else [EvPoolTerminate])
       else [].

(** The calls after a result loop that ended with [r]. *)
Definition epilogue (p : params) (w : world) (r : result unit) : list event :=
  match r with
  | Ok _ => teardown p ++ [EvTqdmExit; EvListenerJoin]
  | Raise e => except_events w e ++ teardown p ++ [EvTqdmExit]
  end.

(** A task that completes with a value the completion callback accepts. *)
Definition completes (p : params) (a : value) : Prop :=
  exists v, task p a = Ok v /\
            (py_bool (task_finished p) = true -> py_call (task_finished p) v = Ok tt).

(** The calls of one pass of the loop over a task that returned [v]. *)
Definition pass_events (p : params) (a : value) : list event :=
  match task p a with
  | Ok v => [EvNext; if py_bool (task_finished p) then EvTaskFinished v else EvPbarUpdate]
  | Raise _ => [EvNext]
  end.

(** The value a task returned, for the tasks that returned. *)
Definition returned (p : params) (a : value) : list value :=
  match task p a with
  | Ok v => [v]
  | Raise _ => []
  end.

(** The tasks whose results the iterator delivers before it is exhausted or
    SIGINT arrives. *)
Definition delivered (w : world) (args : list value) : list value :=
  match sigint_at w with
  | None => completion_order w args
  | Some k => take k (completion_order w args)
  end.

(** The results the completion callback is called on when the iterator
    delivers the tasks [l]: those of the tasks in front of the first task
    that raised, up to and including the first result on which the callback
    raised. *)
Fixpoint reported (p : params) (l : list value) : list value :=
  match l with
  | [] => []
  | a :: rest =>
      match task p a with
      | Raise _ => []
      | Ok v =>
          v :: match py_call (task_finished p) v with
               | Ok _ => reported p rest
               | Raise _ => []
               end
      end
  end.

(** ** Concrete runs *)

Definition task_shout (a : value) : result value := Ok (a ++ "!")%string.

Definition task_fail_on_b (a : value) : result value :=
  if String.eqb a "b" then Raise (RuntimeError "boom") else Ok a.

Definition task_stop_on_b (a : value) : result value :=
  if String.eqb a "b" then Raise StopIteration else Ok a.

(** These tasks fail by an [Exception], if at all. *)
Definition task_shout_failures (a : value) : reportable (task_shout a) := I.

Definition task_fail_on_b_failures (a : value)
  : reportable (task_fail_on_b a) :=
  match String.eqb a "b" as b
        return reportable (if b then Raise (RuntimeError "boom") else Ok a)
  with
  | true => eq_refl
  | false => I
  end.

Definition task_stop_on_b_failures (a : value)
  : reportable (task_stop_on_b a) :=
  match String.eqb a "b" as b
        return reportable (if b then Raise StopIteration else Ok a)
  with
  | true => eq_refl
  | false => I
  end.

Definition p_abc : params :=
  {| use_threads := false;
     max_workers := 2;
     tqdm_kwargs := ∅;
     task_initializer := None_initializer;
     task := task_shout;
     task_arguments := ["a"; "b"; "c"];
     task_finished := None_finished;
     task_failures := task_shout_failures |}.

(** A completion callback that accepts every result. *)
Definition finished_ok : pyobject value (result unit) :=
  {| py_bool := true; py_call := fun _ => Ok tt |}.

Definition p_callback : params :=
  {| use_threads := true;
     max_workers := 4;
     tqdm_kwargs := {[ "total" := "3" ]};
     task_initializer := None_initializer;
     task := task_shout;
     task_arguments := ["a"; "b"; "c"];
     task_finished := finished_ok;
     task_failures := task_shout_failures |}.

Definition p_stop : params :=
  {| use_threads := false;
     max_workers := 2;
     tqdm_kwargs := ∅;
     task_initializer := None_initializer;
     task := task_stop_on_b;
     task_arguments := ["a"; "b"; "c"];
     task_finished := None_finished;
     task_failures := task_stop_on_b_failures |}.

Definition p_fail : params :=
  {| use_threads := false;
     max_workers := 2;
     tqdm_kwargs := ∅;
     task_initializer := None_initializer;
     task := task_fail_on_b;
     task_arguments := ["a"; "b"; "c"];
     task_finished := None_finished;
     task_failures := task_fail_on_b_failures |}.

Definition w_plain : world :=
  {| os_environ := ∅;
     dispatcher_loglevel := 30;
     tqdm_error := None;
     pool_error := None;
     finish_order := @rev value;
     sigint_at := None |}.

Definition w_pytest : world :=
  {| os_environ := {[ "PYTEST_CURRENT_TEST" := "test_pool.py::test_fail (call)" ]};
     dispatcher_loglevel := 30;
     tqdm_error := None;
     pool_error := None;
     finish_order := @rev value;
     sigint_at := None |}.

Definition w_sigint : world :=
  {| os_environ := ∅;
     dispatcher_loglevel := 30;
     tqdm_error := None;
     pool_error := None;
     finish_order := @rev value;
     sigint_at := Some 1%nat |}.

(** A forked worker on a platform with SIGBUS, and one on a platform whose
    [signal] module has no SIGBUS. *)
Definition ws_posix : worker_state :=
  {| signal_names := {[ SIGINT; SIGBUS ]};
     dispositions := ∅;
     sigmask := ∅;
     root_level := 10;
     root_handlers := [LocalHandler "stderr"] |}.

Definition ws_no_sigbus : worker_state :=
  {| signal_names := {[ SIGINT ]};
     dispositions := ∅;
     sigmask := ∅;
     root_level := 10;
     root_handlers := [LocalHandler "stderr"] |}.

Definition sink_fail_on_bad (logger : string) (r : log_record) : result unit :=
  if String.eqb logger "bad" then Raise (RuntimeError "handler failed") else Ok tt.

Definition rec_of (logger : string) : log_record :=
  {| name := logger; levelno := 20; msg := "page done"; extra := [] |}.

(** A queue on which a worker put one more record behind the sentinel. *)
Definition q_demo : list qitem :=
  [ QRecord (rec_of "bad"); QObject "int"; QRecord (rec_of "ocrmypdf");
    QNone; QRecord (rec_of "late") ].

(** ** Further readings of traces and queues *)

(** The calls [logging.getLogger(name).handle(record)], in order. *)
Fixpoint handle_calls (tr : list levent) : list (string * log_record) :=
  match tr with
  | [] => []
  | LsHandle logger r :: tr' => (logger, r) :: handle_calls tr'
  | _ :: tr' => handle_calls tr'
  end.

Definition is_logging_problem (ev : levent) : bool :=
  match ev with LsPrintStderr _ => true | _ => false end.

Definition is_traceback (ev : levent) : bool :=
  match ev with LsTracebackStderr _ => true | _ => false end.

(** The items in front of the first sentinel. *)
Fixpoint until_sentinel (q : list qitem) : list qitem :=
  match q with
  | [] => []
  | QNone :: _ => []
  | item :: rest => item :: until_sentinel rest
  end.

(** The records among some items, in order. *)
Fixpoint records_of (q : list qitem) : list log_record :=
  match q with
  | [] => []
  | QRecord r :: rest => r :: records_of rest
  | _ :: rest => records_of rest
  end.

(** An item whose processing raises: an object without [name], or a record
    that the logging configuration fails on. *)
Definition fails (sink : string -> log_record -> result unit) (item : qitem)
  : bool :=
  match item with
  | QNone => false
  | QRecord r => match sink (name r) r with Ok _ => false | Raise _ => true end
  | QObject _ => true
  end.

(** The same surroundings with another [os.environ]. *)
Definition with_environ (env : gmap string string) (w : world) : world :=
  {| os_environ := env;
     dispatcher_loglevel := dispatcher_loglevel w;
     tqdm_error := tqdm_error w;
     pool_error := pool_error w;
     finish_order := finish_order w;
     sigint_at := sigint_at w |}.

(** ** More concrete runs *)

(** A completion callback that fails on the result ["b!"]. *)
Definition finished_fail_on_b : pyobject value (result unit) :=
  {| py_bool := true;
     py_call := fun r =>
       if String.eqb r "b!" then Raise (RuntimeError "callback failed")
       else Ok tt |}.

Definition p_callback_fail : params :=
  {| use_threads := true;
     max_workers := 4;
     tqdm_kwargs := ∅;
     task_initializer := None_initializer;
     task := task_shout;
     task_arguments := ["a"; "b"; "c"];
     task_finished := finished_fail_on_b;
     task_failures := task_shout_failures |}.

(** A completion callback that raises [StopIteration] on the result
    ["b!"]. *)
Definition finished_stop_on_b : pyobject value (result unit) :=
  {| py_bool := true;
     py_call := fun r =>
       if String.eqb r "b!" then Raise StopIteration else Ok tt |}.

Definition p_callback_stop : params :=
  {| use_threads := true;
     max_workers := 4;
     tqdm_kwargs := ∅;
     task_initializer := None_initializer;
     task := task_shout;
     task_arguments := ["a"; "b"; "c"];
     task_finished := finished_stop_on_b;
     task_failures := task_shout_failures |}.

(** A per-worker setup callback that raises the root logger's level and
    then fails. *)
Definition init_fails : user_callback :=
  {| py_bool := true;
     py_call := fun ws =>
       (Raise (RuntimeError "setup failed"), root_setLevel 40 ws) |}.


Definition p_init_fails : params :=
  {| use_threads := false;
     max_workers := 2;
     tqdm_kwargs := ∅;
     task_initializer := init_fails;
     task := task_shout;
     task_arguments := ["a"];
     task_finished := None_finished;
     task_failures := task_shout_failures |}.

(** A call that asks for a pool of no workers, and the surroundings in
    which the pool's constructor refuses it. *)
Definition p_no_workers : params :=
  {| use_threads := false;
     max_workers := 0;
     tqdm_kwargs := ∅;
     task_initializer := None_initializer;
     task := task_shout;
     task_arguments := ["a"; "b"; "c"];
     task_finished := None_finished;
     task_failures := task_shout_failures |}.

Definition w_pool_refuses : world :=
  {| os_environ := ∅;
     dispatcher_loglevel := 30;
     tqdm_error := None;
     pool_error := Some (ValueError "Number of processes must be at least 1");
     finish_order := @rev value;
     sigint_at := None |}.

(** Surroundings in which worker processes are spawned: the arguments of
    the initializer are pickled for them, and the nested function [_noop]
    cannot be. *)
Definition w_spawn : world :=
  {| os_environ := ∅;
     dispatcher_loglevel := 30;
     tqdm_error := None;
     pool_error :=
       Some (AttributeError
               "Can't pickle local object 'exec_progress_pool.<locals>._noop'");
     finish_order := @rev value;
     sigint_at := None |}.

(** A call with a keyword that [tqdm] does not know. *)
Definition p_bad_kwarg : params :=
  {| use_threads := false;
     max_workers := 2;
     tqdm_kwargs := {[ "colour_" := "red" ]};
     task_initializer := None_initializer;
     task := task_shout;
     task_arguments := ["a"; "b"; "c"];
     task_finished := None_finished;
     task_failures := task_shout_failures |}.

Definition w_tqdm_refuses : world :=
  {| os_environ := ∅;
     dispatcher_loglevel := 30;
     tqdm_error := Some (KeyError "Unknown argument(s): {'colour_': 'red'}");
     pool_error := None;
     finish_order := @rev value;
     sigint_at := None |}.

(** A call in thread mode, and SIGINT during the first [results.next()]. *)
Definition p_threads : params :=
  {| use_threads := true;
     max_workers := 2;
     tqdm_kwargs := ∅;
     task_initializer := None_initializer;
     task := task_shout;
     task_arguments := ["a"; "b"; "c"];
     task_finished := None_finished;
     task_failures := task_shout_failures |}.

Definition w_sigint_first : world :=
  {| os_environ := ∅;
     dispatcher_loglevel := 30;
     tqdm_error := None;
     pool_error := None;
     finish_order := @rev value;
     sigint_at := Some 0%nat |}.

(** A worker thread that has SIGINT blocked already. *)
Definition ws_sigint_blocked : worker_state :=
  {| signal_names := {[ SIGINT; SIGBUS ]};
     dispositions := ∅;
     sigmask := {[ SIGINT ]};
     root_level := 10;
     root_handlers := [] |}.

(** A logging configuration one of whose handlers calls [sys.exit()]. *)
Definition sink_exit_on_bad (logger : string) (r : log_record) : result unit :=
  if String.eqb logger "bad" then Raise SystemExit else Ok tt.

(** * Properties *)

(** ** Counting events *)

Lemma count_app {E} (f : E -> bool) (l1 l2 : list E) :
  count f (l1 ++ l2) = count f l1 + count f l2.
Proof. induction l1 as [|x l1 IH]; simpl; [reflexivity | rewrite IH; lia]. Qed.

(** ** The listener *)

Section ListenerFacts.

Variable sink : string -> log_record -> result unit.

Lemma iteration_sentinel :
  listener_iteration sink QNone = ([LsGet QNone], Ok Break).
Proof. reflexivity. Qed.

Lemma iteration_record_ok (r : log_record) :
  sink (name r) r = Ok tt ->
  listener_iteration sink (QRecord r)
  = ([LsGet (QRecord r); LsHandle (name r) r], Ok Continue).
Proof.
  intros Hs. unfold listener_iteration, q_get, logger_handle; simpl.
  rewrite Hs. reflexivity.
Qed.

Lemma iteration_record_raise (r : log_record) (e : exn) :
  sink (name r) r = Raise e ->
  isinstance e cls_Exception = true ->
  listener_iteration sink (QRecord r)
  = ([LsGet (QRecord r); LsHandle (name r) r;
      LsPrintStderr "Logging problem"; LsTracebackStderr e], Ok Continue).
Proof.
  intros Hs He. unfold listener_iteration, q_get, logger_handle; simpl.
  rewrite Hs; simpl. rewrite He. reflexivity.
Qed.

Lemma iteration_record_escape (r : log_record) (e : exn) :
  sink (name r) r = Raise e ->
  isinstance e cls_Exception = false ->
  listener_iteration sink (QRecord r)
  = ([LsGet (QRecord r); LsHandle (name r) r], Raise e).
Proof.
  intros Hs He. unfold listener_iteration, q_get, logger_handle; simpl.
  rewrite Hs; simpl. rewrite He. reflexivity.
Qed.

Lemma iteration_object (type_name : string) :
  listener_iteration sink (QObject type_name)
  = ([LsGet (QObject type_name); LsPrintStderr "Logging problem";
      LsTracebackStderr (AttributeError (no_attribute_name type_name))],
     Ok Continue).
Proof. reflexivity. Qed.

(** Every pass dequeues exactly the item it is run on. *)
Lemma iteration_dequeued (item : qitem) :
  dequeued (fst (listener_iteration sink item)) = [item].
Proof.
  destruct item as [|r|repr]; try reflexivity.
  destruct (sink (name r) r) as [[]|e] eqn:Hs.
  - rewrite (iteration_record_ok r Hs). reflexivity.
  - destruct (isinstance e cls_Exception) eqn:He.
    + rewrite (iteration_record_raise r e Hs He). reflexivity.
    + rewrite (iteration_record_escape r e Hs He). reflexivity.
Qed.

(** Only the sentinel makes a pass break. *)
Lemma iteration_break (item : qitem) (tr : list levent) :
  listener_iteration sink item = (tr, Ok Break) -> item = QNone.
Proof.
  destruct item as [|r|repr]; [reflexivity | | discriminate].
  destruct (sink (name r) r) as [[]|e] eqn:Hs.
  - rewrite (iteration_record_ok r Hs). discriminate.
  - destruct (isinstance e cls_Exception) eqn:He.
    + rewrite (iteration_record_raise r e Hs He). discriminate.
    + rewrite (iteration_record_escape r e Hs He). discriminate.
Qed.

Lemma dequeued_app (tr1 tr2 : list levent) :
  dequeued (tr1 ++ tr2) = dequeued tr1 ++ dequeued tr2.
Proof.
  induction tr1 as [|ev tr1 IH]; [reflexivity |].
  destruct ev; simpl; rewrite IH; reflexivity.
Qed.

Lemma listener_cons (item : qitem) (rest : list qitem) :
  log_listener sink (item :: rest)
  = match listener_iteration sink item with
    | (tr, Ok Break) => (tr, Stopped)
    | (tr, Ok Continue) =>
        (tr ++ fst (log_listener sink rest), snd (log_listener sink rest))
    | (tr, Raise e) => (tr, Died e)
    end.
Proof.
  simpl. destruct (listener_iteration sink item) as [tr [[]|e]];
    try reflexivity.
  destruct (log_listener sink rest); reflexivity.
Qed.

(** Nothing behind the first sentinel matters to the listener. *)
Lemma listener_ignores_after_sentinel (pre post : list qitem) :
  log_listener sink (pre ++ QNone :: post) = log_listener sink (pre ++ [QNone]).
Proof.
  induction pre as [|item pre IH].
  - reflexivity.
  - rewrite <- !app_comm_cons, !listener_cons.
    destruct (listener_iteration sink item) as [tr [[]|e]]; try reflexivity.
    rewrite IH. reflexivity.
Qed.

(** The listener reads the queue front to back, without gaps. *)
Lemma listener_dequeues_prefix (q : list qitem) :
  exists unread, q = dequeued (fst (log_listener sink q)) ++ unread.
Proof.
  induction q as [|item rest [unread IH]].
  - exists []. reflexivity.
  - rewrite listener_cons.
    pose proof (iteration_dequeued item) as Hd.
    destruct (listener_iteration sink item) as [tr [[]|e]]; simpl in *.
    + exists unread. rewrite dequeued_app, Hd. simpl. congruence.
    + exists rest. rewrite Hd. reflexivity.
    + exists rest. rewrite Hd. reflexivity.
Qed.

(** A stopped listener read up to the first sentinel and no further. *)
Lemma listener_stopped_shape (q : list qitem) :
  snd (log_listener sink q) = Stopped ->
  exists pre post,
    q = pre ++ QNone :: post /\ ~ In QNone pre /\
    dequeued (fst (log_listener sink q)) = pre ++ [QNone].
Proof.
  induction q as [|item rest IH]; [discriminate |].
  rewrite listener_cons.
  pose proof (iteration_dequeued item) as Hd.
  destruct (listener_iteration sink item) as [tr [[]|e]] eqn:Hit;
    simpl in *; intros Hst.
  - destruct (IH Hst) as (pre & post & Hq & Hpre & Hdq).
    exists (item :: pre), post. split; [| split].
    + rewrite Hq. reflexivity.
    + intros [-> | Hin]; [| exact (Hpre Hin)].
      rewrite iteration_sentinel in Hit. discriminate.
    + rewrite dequeued_app, Hd, Hdq. reflexivity.
  - apply iteration_break in Hit. subst item.
    exists [], rest. split; [reflexivity | split; [tauto | exact Hd]].
  - discriminate.
Qed.

(** A sentinel in the queue keeps the listener from waiting. *)
Lemma listener_sentinel_not_waiting (q : list qitem) :
  In QNone q -> snd (log_listener sink q) <> Waiting.
Proof.
  induction q as [|item rest IH]; [intros [] |].
  intros Hin. rewrite listener_cons.
  destruct (listener_iteration sink item) as [tr [[]|e]] eqn:Hit;
    simpl; try discriminate.
  destruct Hin as [-> | Hin]; [| exact (IH Hin)].
  rewrite iteration_sentinel in Hit. discriminate.
Qed.

(** With a logging configuration that raises nothing but [Exception]s, no
    exception escapes the loop. *)
Lemma listener_never_dies (q : list qitem) :
  (forall l r e, sink l r = Raise e -> isinstance e cls_Exception = true) ->
  forall e, snd (log_listener sink q) <> Died e.
Proof.
  intros Hsink. induction q as [|item rest IH]; intros e0; [discriminate |].
  rewrite listener_cons.
  destruct item as [|r|repr].
  - rewrite iteration_sentinel. discriminate.
  - destruct (sink (name r) r) as [[]|e] eqn:Hs.
    + rewrite (iteration_record_ok r Hs). apply IH.
    + rewrite (iteration_record_raise r e Hs (Hsink _ _ _ Hs)). apply IH.
  - rewrite iteration_object. apply IH.
Qed.

(** The records handed to a logger are among the items read. *)
Lemma iteration_handled (item : qitem) (r : log_record) :
  In r (handled (fst (listener_iteration sink item))) -> item = QRecord r.
Proof.
  destruct item as [|r'|repr]; simpl; try tauto.
  destruct (sink (name r') r') as [[]|e] eqn:Hs.
  - rewrite (iteration_record_ok r' Hs). simpl. intros [-> | []]. reflexivity.
  - destruct (isinstance e cls_Exception) eqn:He.
    + rewrite (iteration_record_raise r' e Hs He). simpl.
      intros [-> | []]. reflexivity.
    + rewrite (iteration_record_escape r' e Hs He). simpl.
      intros [-> | []]. reflexivity.
Qed.

End ListenerFacts.

(** ** The dispatcher *)

(** A run in which [tqdm(...)] and the pool's constructor return is its
    prologue, the result loop, and an epilogue that depends only on how the
    loop ended. *)
Lemma exec_progress_pool_unfold (p : params) (w : world) :
  tqdm_error w = None ->
  pool_error w = None ->
  let m := pull_results (task p) (task_finished p)
             (imap_unordered w (task_arguments p)) in
  exec_progress_pool p w
  = (prologue p w ++ trace m ++ epilogue p w (outcome m), outcome m).
Proof.
  intros Htq Hpl m. subst m.
  unfold exec_progress_pool, prologue, epilogue, teardown, except_events,
    inside_pytest, log_queue_of, pool_class_of, initializer_of,
    worker_callback_of, with_tqdm, tqdm_new, pool_new, try_except_finally.
  rewrite Htq, Hpl.
  destruct (pull_results _ _ _) as [tr [[]|e]].
  - destruct (use_threads p), (py_bool (task_initializer p)); simpl;
      rewrite <- ?app_assoc; reflexivity.
  - destruct (use_threads p), (py_bool (task_initializer p)), e; simpl;
      try (destruct (str_bool _)); simpl; rewrite <- ?app_assoc; reflexivity.
Qed.

(** A run in which [tqdm(...)] raises ends there. *)
Lemma exec_progress_pool_tqdm_raises (p : params) (w : world) (e : exn) :
  tqdm_error w = Some e ->
  exec_progress_pool p w = (tqdm_failed_calls p, Raise e).
Proof.
  intros Htq.
  unfold exec_progress_pool, tqdm_failed_calls, log_queue_of, with_tqdm,
    tqdm_new.
  rewrite Htq. destruct (use_threads p); reflexivity.
Qed.

(** A run in which the pool's constructor raises closes the progress bar
    and ends. *)
Lemma exec_progress_pool_pool_raises (p : params) (w : world) (e : exn) :
  tqdm_error w = None ->
  pool_error w = Some e ->
  exec_progress_pool p w = (pool_failed_calls p w, Raise e).
Proof.
  intros Htq Hpl.
  unfold exec_progress_pool, pool_failed_calls, log_queue_of, pool_class_of,
    initializer_of, worker_callback_of, with_tqdm, tqdm_new, pool_new.
  rewrite Htq, Hpl.
  destruct (use_threads p), (py_bool (task_initializer p)); reflexivity.
Qed.

(** The three kinds of run. *)
Lemma setup_cases (w : world) :
  (tqdm_error w = None /\ pool_error w = None) \/
  (exists e, tqdm_error w = Some e) \/
  (tqdm_error w = None /\ exists e, pool_error w = Some e).
Proof.
  destruct (tqdm_error w) as [e|]; [right; left; eauto |].
  destruct (pool_error w) as [e|]; [right; right; eauto | left; auto].
Qed.

(** Where a task completes, [tqdm(...)] and the pool's constructor have
    returned. *)
Lemma completion_order_started (w : world) (l : list value) :
  completion_order w l <> [] ->
  tqdm_error w = None /\ pool_error w = None.
Proof.
  unfold completion_order.
  destruct (tqdm_error w), (pool_error w); try congruence. auto.
Qed.

Section LoopFacts.

Variable p : params.

Local Abbreviation pull := (pull_results (task p) (task_finished p)).

(** An exhausted iterator ends the loop. *)
Lemma pull_results_exhausted : pull [] = ([EvNext], Ok tt).
Proof. reflexivity. Qed.

(** SIGINT during [results.next()] leaves the loop at once. *)
Lemma pull_results_interrupted (rest : list step) :
  pull (Interrupted :: rest) = ([EvNext], Raise KeyboardInterrupt).
Proof. reflexivity. Qed.

(** A failed task leaves the loop with the task's exception. *)
Lemma pull_results_failed (a : value) (rest : list step) (e : exn) :
  task p a = Raise e ->
  isinstance e cls_StopIteration = false ->
  pull (Completed a :: rest) = ([EvNext], Raise e).
Proof.
  intros Ht He. simpl.
  unfold loop_iteration, results_next; simpl. rewrite Ht; simpl.
  rewrite He. reflexivity.
Qed.

(** A task that raises [StopIteration] ends the loop as if no task were
    left. *)
Lemma pull_results_stop_iteration (a : value) (rest : list step) :
  task p a = Raise StopIteration ->
  pull (Completed a :: rest) = ([EvNext], Ok tt).
Proof.
  intros Ht. simpl.
  unfold loop_iteration, results_next; simpl. rewrite Ht. reflexivity.
Qed.

(** A completed task is reported and the loop goes on. *)
Lemma pull_results_completed (a : value) (rest : list step) :
  completes p a ->
  pull (Completed a :: rest)
  = (pass_events p a ++ trace (pull rest), outcome (pull rest)).
Proof.
  intros (v & Ht & Hcb). unfold pass_events. rewrite Ht.
  simpl. unfold loop_iteration, results_next, call_task_finished, pbar_update.
  simpl. rewrite Ht; simpl.
  destruct (py_bool (task_finished p)) eqn:Hb; simpl.
  - rewrite (Hcb eq_refl); simpl.
    destruct (pull_results _ _ rest); reflexivity.
  - destruct (pull_results _ _ rest); reflexivity.
Qed.

Lemma pull_results_prefix (pre : list value) (rest : list step) :
  Forall (completes p) pre ->
  pull (map Completed pre ++ rest)
  = (flat_map (pass_events p) pre ++ trace (pull rest), outcome (pull rest)).
Proof.
  induction 1 as [|a pre Ha _ IH]; cbn [map app flat_map].
  - destruct (pull rest); reflexivity.
  - rewrite (pull_results_completed a _ Ha), IH. cbn [trace outcome fst snd].
    rewrite <- app_assoc. reflexivity.
Qed.

(** What the passes over completed tasks add up to. *)
Lemma count_finished_passes (l : list value) :
  Forall (completes p) l ->
  count is_task_finished (flat_map (pass_events p) l)
  = if py_bool (task_finished p) then length l else 0.
Proof.
  induction 1 as [|a l (v & Ht & _) _ IH]; simpl.
  - destruct (py_bool _); reflexivity.
  - rewrite count_app, IH. unfold pass_events. rewrite Ht.
    destruct (py_bool _); reflexivity.
Qed.

Lemma count_updates_passes (l : list value) :
  Forall (completes p) l ->
  count is_pbar_update (flat_map (pass_events p) l)
  = if py_bool (task_finished p) then 0 else length l.
Proof.
  induction 1 as [|a l (v & Ht & _) _ IH]; simpl.
  - destruct (py_bool _); reflexivity.
  - rewrite count_app, IH. unfold pass_events. rewrite Ht.
    destruct (py_bool _); reflexivity.
Qed.

Lemma finished_values_app (tr1 tr2 : list event) :
  finished_values (tr1 ++ tr2) = finished_values tr1 ++ finished_values tr2.
Proof.
  induction tr1 as [|ev tr1 IH]; [reflexivity |].
  destruct ev; simpl; rewrite IH; reflexivity.
Qed.

Lemma finished_values_passes (l : list value) :
  py_bool (task_finished p) = true ->
  finished_values (flat_map (pass_events p) l) = flat_map (returned p) l.
Proof.
  intros Hb. induction l as [|a l IH]; [reflexivity |].
  simpl. rewrite finished_values_app, IH.
  unfold pass_events, returned. rewrite Hb.
  destruct (task p a); reflexivity.
Qed.

Lemma returned_all (l : list value) :
  Forall (completes p) l ->
  map Ok (flat_map (returned p) l) = map (task p) l.
Proof.
  induction 1 as [|a l (v & Ht & _) _ IH]; [reflexivity |].
  simpl. rewrite map_app, IH. unfold returned. rewrite Ht. reflexivity.
Qed.

(** The loop calls nothing but [results.next()], the completion callback and
    [pbar.update()]. *)
Lemma pull_results_loop_events (it : list step) :
  Forall (fun ev => is_loop_event ev = true) (trace (pull it)).
Proof.
  induction it as [|s rest IH].
  - repeat constructor.
  - destruct s as [a|]; [| repeat constructor].
    simpl. unfold loop_iteration, results_next, call_task_finished, pbar_update.
    simpl. destruct (task p a) as [v|e]; simpl.
    + destruct (py_bool (task_finished p)); simpl.
      * destruct (py_call (task_finished p) v) as [[]|e]; simpl.
        -- destruct (pull_results _ _ rest) as [tr r]; simpl in *.
           repeat constructor. exact IH.
        -- destruct (isinstance e cls_StopIteration); repeat constructor.
      * destruct (pull_results _ _ rest) as [tr r]; simpl in *.
        repeat constructor. exact IH.
    + destruct (isinstance e cls_StopIteration); repeat constructor.
Qed.

End LoopFacts.

Lemma count_none {E} (f g : E -> bool) (tr : list E) :
  (forall ev, g ev = true -> f ev = false) ->
  Forall (fun ev => g ev = true) tr ->
  count f tr = 0.
Proof.
  intros Hfg. induction 1 as [|ev tr Hev _ IH]; [reflexivity |].
  simpl. rewrite (Hfg ev Hev), IH. reflexivity.
Qed.


(** ** Three runs *)

(** Thread mode with a completion callback: every result is handed to the
    callback, in completion order, and the listener is joined last. *)
Example run_with_callback :
  exec_progress_pool p_callback w_plain
  = ([ EvQueue QueueQueue; EvListenerStart QueueQueue;
       EvTqdmEnter {[ "total" := "3" ]};
       EvPool ThreadPool 4 thread_init (QueueQueue, _noop, 30%Z);
       EvImapUnordered ["a"; "b"; "c"];
       EvNext; EvTaskFinished "c!";
       EvNext; EvTaskFinished "b!";
       EvNext; EvTaskFinished "a!";
       EvNext;
       EvPutNowait QueueQueue QNone; EvPoolClose; EvPoolJoin;
       EvTqdmExit; EvListenerJoin ],
     Ok tt).
Proof. reflexivity. Qed.

(** A task that raises [StopIteration] is taken for the end of the results:
    the loop breaks, the remaining result is never pulled and the call
    returns normally. *)
Example run_task_raises_stop_iteration :
  exec_progress_pool p_stop w_plain
  = (prologue p_stop w_plain
     ++ [EvNext; EvPbarUpdate; EvNext]
     ++ teardown p_stop ++ [EvTqdmExit; EvListenerJoin],
     Ok tt).
Proof. reflexivity. Qed.

(** The listener on a queue with a failing record, a stray object, a good
    record, the sentinel and a late record. *)
Example run_listener :
  log_listener sink_fail_on_bad q_demo
  = ([ LsGet (QRecord (rec_of "bad")); LsHandle "bad" (rec_of "bad");
       LsPrintStderr "Logging problem";
       LsTracebackStderr (RuntimeError "handler failed");
       LsGet (QObject "int");
       LsPrintStderr "Logging problem";
       LsTracebackStderr
         (AttributeError "'int' object has no attribute 'name'");
       LsGet (QRecord (rec_of "ocrmypdf"));
       LsHandle "ocrmypdf" (rec_of "ocrmypdf");
       LsGet QNone ],
     Stopped).
Proof. reflexivity. Qed.

(** ** Teardown on every exit path *)

(** The calls before the [finally] block: none of them is a teardown call. *)
Lemma before_teardown_counts (p : params) (w : world) (r : result unit)
    (tr : list event) (f : event -> bool) :
  Forall (fun ev => is_loop_event ev = true) tr ->
  (forall ev, is_loop_event ev = true -> f ev = false) ->
  count f (prologue p w) = 0 ->
  f EvPoolTerminate = false ->
  count f (prologue p w ++ tr ++
             match r with Ok _ => [] | Raise e => except_events w e end) = 0.
Proof.
  intros Htr Hf Hpro Hterm. rewrite !count_app, Hpro, (count_none f _ tr Hf Htr).
  destruct r as [|e]; [reflexivity |]. unfold except_events.
  destruct (isinstance e cls_KeyboardInterrupt); simpl; [rewrite Hterm; reflexivity |].
  destruct (isinstance e cls_Exception); [| reflexivity].
  destruct (inside_pytest w); simpl; [reflexivity | rewrite Hterm; reflexivity].
Qed.

(** Where the completion order holds a task, [tqdm(...)] and the pool's
    constructor have returned. *)
Lemma started_by_order (w : world) (l pre : list value) (a : value)
    (post : list value) :
  completion_order w l = pre ++ a :: post ->
  tqdm_error w = None /\ pool_error w = None.
Proof.
  intros Horder. apply (completion_order_started w l).
  rewrite Horder. destruct pre; discriminate.
Qed.

(** A run that came to its pool, split at the [finally] block. *)
Lemma exec_progress_pool_split (p : params) (w : world) :
  tqdm_error w = None ->
  pool_error w = None ->
  let m := pull_results (task p) (task_finished p)
             (imap_unordered w (task_arguments p)) in
  let before := prologue p w ++ trace m ++
                  match outcome m with Ok _ => [] | Raise e => except_events w e end in
  outcome (exec_progress_pool p w) = outcome m /\
  trace (exec_progress_pool p w)
  = before ++ teardown p ++
      EvTqdmExit :: match outcome m with Ok _ => [EvListenerJoin] | Raise _ => [] end.
Proof.
  intros Htq Hpl m before. subst before.
  rewrite (exec_progress_pool_unfold p w Htq Hpl). fold m.
  cbn [trace outcome fst snd].
  split; [reflexivity |].
  destruct (outcome m) as [[]|e]; unfold epilogue; rewrite <- !app_assoc;
    reflexivity.
Qed.

(** C1, as stated, fails, on two exit paths.  When SIGINT arrives during
    the second [results.next()], the call leaves with [KeyboardInterrupt]
    after the sentinel, [pool.close()] and [pool.join()], and
    [listener.join()] is never called.  When the pool's constructor raises
    (here on a request for no workers), the call leaves with that exception
    from outside the [try] statement: the listener thread has been started,
    and no sentinel is put, no pool closed or joined, no listener joined. *)
Lemma C1_counterexample :
  (outcome (exec_progress_pool p_abc w_sigint) = Raise KeyboardInterrupt /\
   count is_sentinel_put (trace (exec_progress_pool p_abc w_sigint)) = 1 /\
   count is_pool_join (trace (exec_progress_pool p_abc w_sigint)) = 1 /\
   count is_listener_join (trace (exec_progress_pool p_abc w_sigint)) = 0) /\
  (outcome (exec_progress_pool p_no_workers w_pool_refuses)
   = Raise (ValueError "Number of processes must be at least 1") /\
   count is_listener_start
     (trace (exec_progress_pool p_no_workers w_pool_refuses)) = 1 /\
   count is_sentinel_put
     (trace (exec_progress_pool p_no_workers w_pool_refuses)) = 0 /\
   count is_pool_close
     (trace (exec_progress_pool p_no_workers w_pool_refuses)) = 0 /\
   count is_pool_join
     (trace (exec_progress_pool p_no_workers w_pool_refuses)) = 0 /\
   count is_listener_join
     (trace (exec_progress_pool p_no_workers w_pool_refuses)) = 0).
Proof. repeat split; vm_compute; reflexivity. Qed.

(** C1, amended: in every call of [exec_progress_pool] that came to its pool
    ([tqdm(...)] and the pool's constructor returned), on every exit path
    (normal return, [KeyboardInterrupt], a task's or the callback's
    exception) the sentinel is put on the log queue, the pool is closed and
    the pool is joined, in that order and once; the progress bar is then
    closed, and [listener.join()] follows exactly when the call returns
    normally. *)
Theorem C1_teardown_on_every_exit (p : params) (w : world) :
  tqdm_error w = None ->
  pool_error w = None ->
  exists before,
    trace (exec_progress_pool p w)
    = before ++ teardown p ++
        EvTqdmExit :: match outcome (exec_progress_pool p w) with
                      | Ok _ => [EvListenerJoin]
                      | Raise _ => []
                      end
    /\ count is_sentinel_put before = 0
    /\ count is_pool_close before = 0
    /\ count is_pool_join before = 0
    /\ count is_listener_join before = 0.
Proof.
  intros Htq Hpl.
  destruct (exec_progress_pool_split p w Htq Hpl) as [Hout Htr].
  eexists. rewrite Hout. split; [exact Htr |].
  pose proof (pull_results_loop_events p (imap_unordered w (task_arguments p)))
    as Hloop.
  repeat split; apply before_teardown_counts; try assumption;
    try reflexivity; intros [] Hev; try discriminate; reflexivity.
Qed.

(** C1 (amended) at the run of three tasks that returns normally and at the
    run that SIGINT ends. *)
Lemma C1_witness :
  (exists before,
     trace (exec_progress_pool p_abc w_plain)
     = before ++ teardown p_abc ++ [EvTqdmExit; EvListenerJoin]
     /\ count is_sentinel_put before = 0
     /\ count is_pool_close before = 0
     /\ count is_pool_join before = 0
     /\ count is_listener_join before = 0) /\
  (exists before,
     trace (exec_progress_pool p_abc w_sigint)
     = before ++ teardown p_abc ++ [EvTqdmExit]
     /\ count is_sentinel_put before = 0
     /\ count is_pool_close before = 0
     /\ count is_pool_join before = 0
     /\ count is_listener_join before = 0).
Proof.
  split.
  - exact (C1_teardown_on_every_exit p_abc w_plain eq_refl eq_refl).
  - exact (C1_teardown_on_every_exit p_abc w_sigint eq_refl eq_refl).
Defined.

(** ** Results without failures *)

Lemma count_prologue_results (p : params) (w : world) :
  count is_task_finished (prologue p w) = 0 /\
  count is_pbar_update (prologue p w) = 0.
Proof. split; reflexivity. Qed.

(** C2: when every submitted task returns, the completion callback (if one is
    supplied) accepts every result and SIGINT does not arrive,
    [exec_progress_pool] returns normally after exactly one completion
    callback per task, or else exactly one [pbar.update()] per task; the
    values the callback receives are the tasks' results, each once. *)
Theorem C2_all_results_observed (p : params) (w : world) :
  (forall l, Permutation (completion_order w l) l) ->
  sigint_at w = None ->
  (forall a, In a (task_arguments p) -> completes p a) ->
  let run := exec_progress_pool p w in
  let N := length (task_arguments p) in
  outcome run = Ok tt /\
  if py_bool (task_finished p)
  then count is_task_finished (trace run) = N /\
       count is_pbar_update (trace run) = 0 /\
       Permutation (map Ok (finished_values (trace run)))
                   (map (task p) (task_arguments p))
  else count is_pbar_update (trace run) = N /\
       count is_task_finished (trace run) = 0.
Proof.
  intros Hperm Hsig Hall run N. subst run N.
  destruct (completion_order_started w ["x"]) as [Htq Hpl].
  { intros Hnil. pose proof (Hperm ["x"]) as Hx. rewrite Hnil in Hx.
    apply Permutation_nil in Hx. discriminate. }
  set (done := completion_order w (task_arguments p)).
  assert (Forall (completes p) done) as Hdone.
  { apply List.Forall_forall. intros a Ha. apply Hall.
    exact (Permutation_in a (Hperm _) Ha). }
  assert (pull_results (task p) (task_finished p)
            (imap_unordered w (task_arguments p))
          = (flat_map (pass_events p) done ++ [EvNext], Ok tt)) as Hpull.
  { unfold imap_unordered. rewrite Hsig. fold done.
    rewrite <- (app_nil_r (map Completed done)).
    rewrite (pull_results_prefix p done [] Hdone). reflexivity. }
  rewrite (exec_progress_pool_unfold p w Htq Hpl), Hpull.
  cbn [trace outcome fst snd epilogue].
  split; [reflexivity |].
  assert (length done = length (task_arguments p)) as Hlen
    by exact (Permutation_length (Hperm _)).
  rewrite !count_app, (count_finished_passes p done Hdone),
    (count_updates_passes p done Hdone).
  destruct (count_prologue_results p w) as [-> ->].
  destruct (py_bool (task_finished p)) eqn:Hb.
  - split; [simpl; lia | split; [simpl; lia |]].
    rewrite !finished_values_app, (finished_values_passes p done Hb).
    change (finished_values (prologue p w)) with (@nil value).
    change (finished_values (teardown p ++ [EvTqdmExit; EvListenerJoin]))
      with (@nil value).
    change (finished_values [EvNext]) with (@nil value).
    rewrite !app_nil_r, app_nil_l, (returned_all p done Hdone).
    apply Permutation_map, Hperm.
  - split; simpl; lia.
Qed.

(** C2 at three tasks completing in reverse order, with a completion
    callback. *)
Lemma C2_witness :
  outcome (exec_progress_pool p_callback w_plain) = Ok tt /\
  count is_task_finished (trace (exec_progress_pool p_callback w_plain)) = 3 /\
  count is_pbar_update (trace (exec_progress_pool p_callback w_plain)) = 0 /\
  Permutation
    (map Ok (finished_values (trace (exec_progress_pool p_callback w_plain))))
    (map task_shout ["a"; "b"; "c"]).
Proof.
  apply (C2_all_results_observed p_callback w_plain).
  - intros l. symmetry. apply Permutation_rev.
  - reflexivity.
  - intros a _. exists (a ++ "!")%string. split; reflexivity.
Defined.

(** ** Interrupts and task failures *)

(** X15: in a call that came to its pool, when SIGINT arrives during the
    [k]-th call of [results.next()] (counted from 0, the tasks completed
    before it having been reported), [pool.terminate()] is called right
    after that call, no further result is asked for, the [finally] block
    runs (sentinel, [pool.close()], [pool.join()]), the progress bar is
    closed and the call leaves with [KeyboardInterrupt]. *)
Theorem interrupt_call_order (p : params) (w : world) (k : nat) :
  tqdm_error w = None ->
  pool_error w = None ->
  sigint_at w = Some k ->
  (forall a, In a (take k (completion_order w (task_arguments p))) ->
             completes p a) ->
  exec_progress_pool p w
  = (prologue p w
     ++ flat_map (pass_events p)
          (take k (completion_order w (task_arguments p)))
     ++ [EvNext; EvPoolTerminate]
     ++ teardown p ++ [EvTqdmExit],
     Raise KeyboardInterrupt).
Proof.
  intros Htq Hpl Hsig Hpre.
  set (seen := take k (completion_order w (task_arguments p))) in *.
  assert (Forall (completes p) seen) as Hseen
    by (apply List.Forall_forall; exact Hpre).
  assert (pull_results (task p) (task_finished p)
            (imap_unordered w (task_arguments p))
          = (flat_map (pass_events p) seen ++ [EvNext], Raise KeyboardInterrupt))
    as Hpull.
  { unfold imap_unordered. rewrite Hsig, firstn_map. fold seen.
    rewrite (pull_results_prefix p seen [Interrupted] Hseen). reflexivity. }
  rewrite (exec_progress_pool_unfold p w Htq Hpl), Hpull.
  cbn [trace outcome fst snd epilogue].
  rewrite <- !app_assoc. reflexivity.
Qed.

(** SIGINT during the second [results.next()] of a call in process mode. *)
Lemma interrupt_call_order_witness :
  exec_progress_pool p_abc w_sigint
  = (prologue p_abc w_sigint
     ++ [EvNext; EvPbarUpdate]
     ++ [EvNext; EvPoolTerminate]
     ++ teardown p_abc ++ [EvTqdmExit],
     Raise KeyboardInterrupt).
Proof.
  apply (interrupt_call_order p_abc w_sigint 1); try reflexivity.
  intros a _. exists (a ++ "!")%string. split; [reflexivity | discriminate].
Defined.

(** C4: the run of the call in thread mode when SIGINT arrives during the
    first [results.next()], the tasks still running.  [pool.terminate()] is
    called at once, and after it the [finally] block calls [pool.join()] on
    the thread pool all the same; the call leaves only when that join has
    returned. *)
Theorem C4_thread_pool_joined_after_terminate :
  exec_progress_pool p_threads w_sigint_first
  = ([ EvQueue QueueQueue; EvListenerStart QueueQueue; EvTqdmEnter ∅;
       EvPool ThreadPool 2 thread_init (QueueQueue, _noop, 30%Z);
       EvImapUnordered ["a"; "b"; "c"];
       EvNext;
       EvPoolTerminate;
       EvPutNowait QueueQueue QNone; EvPoolClose; EvPoolJoin;
       EvTqdmExit ],
     Raise KeyboardInterrupt).
Proof. reflexivity. Qed.

(** C5, as stated, fails: with the same keyword arguments, the same tasks
    and the same completion order, a failing task leads to
    [pool.terminate()] when [PYTEST_CURRENT_TEST] is unset and to no
    [pool.terminate()] when it is set; no argument of the call selects
    between the two. *)
Lemma C5_counterexample :
  outcome (exec_progress_pool p_fail w_plain) = Raise (RuntimeError "boom") /\
  outcome (exec_progress_pool p_fail w_pytest) = Raise (RuntimeError "boom") /\
  count is_pool_terminate (trace (exec_progress_pool p_fail w_plain)) = 1 /\
  count is_pool_terminate (trace (exec_progress_pool p_fail w_pytest)) = 0.
Proof. repeat split; vm_compute; reflexivity. Qed.

(** C5, amended: when a task raises an [Exception] other than
    [StopIteration] (the tasks completed before it having been reported, and
    no SIGINT), [exec_progress_pool] calls [pool.terminate()] unless the
    environment variable [PYTEST_CURRENT_TEST] is set to a non-empty string,
    runs the teardown and re-raises the task's exception; the choice is read
    from the process environment, not from an argument of the call. *)
Theorem C5_task_failure_policy (p : params) (w : world)
    (pre : list value) (a : value) (post : list value) (e : exn) :
  sigint_at w = None ->
  completion_order w (task_arguments p) = pre ++ a :: post ->
  Forall (completes p) pre ->
  task p a = Raise e ->
  isinstance e cls_Exception = true ->
  isinstance e cls_StopIteration = false ->
  let run := exec_progress_pool p w in
  outcome run = Raise e /\
  trace run
  = prologue p w
    ++ flat_map (pass_events p) pre
    ++ [EvNext]
    ++ (if str_bool (environ_get (os_environ w) "PYTEST_CURRENT_TEST" "")
        then []
        else [EvPoolTerminate])
    ++ teardown p ++ [EvTqdmExit].
Proof.
  intros Hsig Horder Hpre Ha Hexc Hstop run. subst run.
  destruct (started_by_order w _ _ _ _ Horder) as [Htq Hpl].
  assert (pull_results (task p) (task_finished p)
            (imap_unordered w (task_arguments p))
          = (flat_map (pass_events p) pre ++ [EvNext], Raise e)) as Hpull.
  { unfold imap_unordered. rewrite Hsig, Horder, map_app.
    rewrite (pull_results_prefix p pre _ Hpre). cbn [map].
    rewrite (pull_results_failed p a _ e Ha Hstop). reflexivity. }
  rewrite (exec_progress_pool_unfold p w Htq Hpl), Hpull.
  cbn [trace outcome fst snd epilogue].
  split; [reflexivity |].
  unfold except_events, inside_pytest.
  assert (isinstance e cls_KeyboardInterrupt = false) as ->
    by (destruct e; try reflexivity; discriminate).
  rewrite Hexc, <- !app_assoc. reflexivity.
Qed.

(** C5 (amended) at a task failing second, outside pytest. *)
Lemma C5_witness :
  outcome (exec_progress_pool p_fail w_plain) = Raise (RuntimeError "boom") /\
  trace (exec_progress_pool p_fail w_plain)
  = prologue p_fail w_plain
    ++ [EvNext; EvPbarUpdate]
    ++ [EvNext]
    ++ [EvPoolTerminate]
    ++ teardown p_fail ++ [EvTqdmExit].
Proof.
  apply (C5_task_failure_policy p_fail w_plain ["c"] "b" ["a"]
           (RuntimeError "boom")); try reflexivity.
  constructor; [| constructor].
  exists "c". split; [reflexivity | discriminate].
Defined.

(** ** The listener and the sentinel *)

Section ListenerClaims.

Variable sink : string -> log_record -> result unit.

(** A listener left waiting has read the whole queue. *)
Lemma listener_waiting_read_all (q : list qitem) :
  snd (log_listener sink q) = Waiting ->
  dequeued (fst (log_listener sink q)) = q.
Proof.
  induction q as [|item rest IH]; [reflexivity |].
  rewrite listener_cons.
  pose proof (iteration_dequeued sink item) as Hd.
  destruct (listener_iteration sink item) as [tr [[]|e]]; simpl in *;
    try discriminate.
  intros Hst. rewrite dequeued_app, Hd, (IH Hst). reflexivity.
Qed.

(** Whatever was handed to a logger had been read from the queue. *)
Lemma listener_handled_dequeued (q : list qitem) (r : log_record) :
  In r (handled (fst (log_listener sink q))) ->
  In (QRecord r) (dequeued (fst (log_listener sink q))).
Proof.
  induction q as [|item rest IH]; [intros [] |].
  rewrite listener_cons.
  pose proof (iteration_dequeued sink item) as Hd.
  pose proof (iteration_handled sink item r) as Hh.
  destruct (listener_iteration sink item) as [tr [[]|e]]; simpl in *.
  - assert (forall t1 t2, handled (t1 ++ t2) = handled t1 ++ handled t2) as Happ.
    { induction t1 as [|ev t1 IHt]; intros t2; [reflexivity |].
      destruct ev; simpl; rewrite IHt; reflexivity. }
    rewrite Happ, dequeued_app, Hd. intros Hin.
    apply in_app_or in Hin as [Hin | Hin].
    + left. exact (Hh Hin).
    + right. exact (IH Hin).
  - rewrite Hd. intros Hin. left. exact (Hh Hin).
  - rewrite Hd. intros Hin. left. exact (Hh Hin).
Qed.

(** Behind the first sentinel nothing is read. *)
Lemma listener_reads_up_to_sentinel (pre post : list qitem) :
  exists unread,
    pre ++ [QNone]
    = dequeued (fst (log_listener sink (pre ++ QNone :: post))) ++ unread.
Proof.
  rewrite listener_ignores_after_sentinel. apply listener_dequeues_prefix.
Qed.

End ListenerClaims.

(** C3, as stated, fails: [except Exception] lets through what is no
    [Exception].  With a handler that calls [sys.exit()] on the first
    record, the listener ends on that record, without a diagnostic and
    before it has dequeued the sentinel that waits behind it. *)
Lemma C3_counterexample :
  In QNone [QRecord (rec_of "bad"); QNone] /\
  log_listener sink_exit_on_bad [QRecord (rec_of "bad"); QNone]
  = ([LsGet (QRecord (rec_of "bad")); LsHandle "bad" (rec_of "bad")],
     Died SystemExit).
Proof. split; [right; left; reflexivity | reflexivity]. Qed.

(** C3, amended: as long as the handling of records raises nothing but
    instances of [Exception], the listener stops exactly when the queue
    delivers the sentinel, having read up to the first sentinel and no
    further, and otherwise stays blocked in [q.get()] with the whole queue
    read; no exception leaves the loop.  A record whose handling raises, and
    an object that is no record, each yield the two diagnostics on
    [sys.stderr], after which the loop goes on with the next item. *)
Theorem C3_listener_stops_only_on_sentinel
    (sink : string -> log_record -> result unit) (q : list qitem) :
  (forall l r e, sink l r = Raise e -> isinstance e cls_Exception = true) ->
  let run := log_listener sink q in
  (snd run = Stopped <-> In QNone q) /\
  (snd run = Stopped \/ snd run = Waiting) /\
  (snd run = Stopped ->
   exists pre post,
     q = pre ++ QNone :: post /\ ~ In QNone pre /\
     dequeued (fst run) = pre ++ [QNone]) /\
  (snd run = Waiting -> dequeued (fst run) = q) /\
  (forall r rest e,
     sink (name r) r = Raise e ->
     log_listener sink (QRecord r :: rest)
     = ([LsGet (QRecord r); LsHandle (name r) r;
         LsPrintStderr "Logging problem"; LsTracebackStderr e]
        ++ fst (log_listener sink rest),
        snd (log_listener sink rest))) /\
  (forall type_name rest,
     log_listener sink (QObject type_name :: rest)
     = ([LsGet (QObject type_name); LsPrintStderr "Logging problem";
         LsTracebackStderr
           (AttributeError
              ("'" ++ type_name ++ "' object has no attribute 'name'"))]
        ++ fst (log_listener sink rest),
        snd (log_listener sink rest))).
Proof.
  intros Hsink run. subst run.
  pose proof (listener_never_dies sink q Hsink) as Halive.
  pose proof (listener_stopped_shape sink q) as Hshape.
  assert (snd (log_listener sink q) = Stopped \/
          snd (log_listener sink q) = Waiting) as Hcases.
  { destruct (snd (log_listener sink q)) as [| |e]; [tauto | tauto |].
    destruct (Halive e eq_refl). }
  repeat split.
  - intros Hst. destruct (Hshape Hst) as (pre & post & -> & _).
    apply in_or_app. right. left. reflexivity.
  - intros Hin. destruct Hcases as [Hst | Hw]; [exact Hst |].
    destruct (listener_sentinel_not_waiting sink q Hin Hw).
  - exact Hcases.
  - exact Hshape.
  - apply listener_waiting_read_all.
  - intros r rest e Hs. rewrite listener_cons.
    rewrite (iteration_record_raise sink r e Hs (Hsink _ _ _ Hs)). reflexivity.
  - intros type_name rest. rewrite listener_cons, iteration_object.
    reflexivity.
Qed.

(** C3 (amended) at a queue holding a record whose handling fails, an
    object that is no record, a good record and then the sentinel. *)
Lemma C3_witness :
  snd (log_listener sink_fail_on_bad q_demo) = Stopped /\
  dequeued (fst (log_listener sink_fail_on_bad q_demo))
  = [ QRecord (rec_of "bad"); QObject "int"; QRecord (rec_of "ocrmypdf");
      QNone ].
Proof.
  assert (forall l r e, sink_fail_on_bad l r = Raise e ->
                        isinstance e cls_Exception = true) as Hsink.
  { intros l r e. unfold sink_fail_on_bad.
    destruct (String.eqb l "bad"); intros [= <-]. reflexivity. }
  destruct (C3_listener_stops_only_on_sentinel sink_fail_on_bad q_demo Hsink)
    as (Hiff & _).
  split; [| reflexivity].
  apply Hiff. unfold q_demo. simpl. tauto.
Defined.

(** A call that came to its pool puts the sentinel on the log queue once,
    and joins the pool once. *)
Lemma count_teardown_calls (p : params) (w : world) :
  tqdm_error w = None ->
  pool_error w = None ->
  count is_sentinel_put (trace (exec_progress_pool p w)) = 1 /\
  count is_pool_join (trace (exec_progress_pool p w)) = 1.
Proof.
  intros Htq Hpl.
  destruct (exec_progress_pool_split p w Htq Hpl) as [_ ->].
  pose proof (pull_results_loop_events p (imap_unordered w (task_arguments p)))
    as Hloop.
  split; rewrite count_app, before_teardown_counts; try assumption;
    try reflexivity;
    try (intros [] Hev; try discriminate; reflexivity);
    rewrite count_app; destruct (outcome _); reflexivity.
Qed.

(** A call that did not come to its pool starts the listener and makes none
    of the later calls. *)
Lemma setup_failed_calls (p : params) (w : world) :
  tqdm_error w <> None \/ pool_error w <> None ->
  (trace (exec_progress_pool p w) = tqdm_failed_calls p \/
   trace (exec_progress_pool p w) = pool_failed_calls p w) /\
  count is_listener_start (trace (exec_progress_pool p w)) = 1 /\
  count is_loop_event (trace (exec_progress_pool p w)) = 0 /\
  count is_pool_terminate (trace (exec_progress_pool p w)) = 0 /\
  count is_sentinel_put (trace (exec_progress_pool p w)) = 0 /\
  count is_pool_close (trace (exec_progress_pool p w)) = 0 /\
  count is_pool_join (trace (exec_progress_pool p w)) = 0 /\
  count is_listener_join (trace (exec_progress_pool p w)) = 0.
Proof.
  intros Hfail.
  destruct (setup_cases w) as [[Htq Hpl] | [[e Htq] | [Htq [e Hpl]]]].
  - destruct Hfail; congruence.
  - rewrite (exec_progress_pool_tqdm_raises p w e Htq).
    split; [left; reflexivity | repeat split].
  - rewrite (exec_progress_pool_pool_raises p w e Htq Hpl).
    split; [right; reflexivity | repeat split].
Qed.

Lemma setup_failed_or_not (w : world) :
  (tqdm_error w = None /\ pool_error w = None) \/
  (tqdm_error w <> None \/ pool_error w <> None).
Proof.
  destruct (tqdm_error w); [right; left; discriminate |].
  destruct (pool_error w); [right; right; discriminate | left; auto].
Qed.

(** In a list with a single [x], the places around [x] are determined. *)
Lemma single_occurrence_split {E} (f : E -> bool) (x : E)
    (l1 l2 a b : list E) :
  count f l1 = 0 -> f x = true ->
  l1 ++ x :: l2 = a ++ x :: b ->
  count f a = 0 ->
  a = l1 /\ b = l2.
Proof.
  intros Hl Hx. revert a. induction l1 as [|y l1 IH]; intros a Heq Ha.
  - destruct a as [|z a]; simpl in Heq.
    + injection Heq as <-. split; reflexivity.
    + injection Heq as <- _. simpl in Ha. rewrite Hx in Ha. discriminate.
  - simpl in Hl. destruct (f y) eqn:Hy; [discriminate |].
    destruct a as [|z a]; simpl in Heq.
    + injection Heq as -> _. congruence.
    + injection Heq as -> Heq. simpl in Ha. rewrite Hy in Ha.
      destruct (IH Hl a Heq Ha) as [-> ->]. split; reflexivity.
Qed.

(** C8: a call of [exec_progress_pool] puts at most one sentinel on the log
    queue, and the listener reads nothing behind a sentinel: its run is the
    same whatever follows the sentinel, it does not go back to waiting, what
    it dequeued lies within the items up to the sentinel, and every record
    it handled was enqueued before the sentinel. *)
Theorem C8_single_sentinel_no_reads_after (p : params) (w : world)
    (sink : string -> log_record -> result unit) (pre post : list qitem) :
  count is_sentinel_put (trace (exec_progress_pool p w)) <= 1 /\
  log_listener sink (pre ++ QNone :: post) = log_listener sink (pre ++ [QNone]) /\
  snd (log_listener sink (pre ++ QNone :: post)) <> Waiting /\
  (exists unread,
     pre ++ [QNone]
     = dequeued (fst (log_listener sink (pre ++ QNone :: post))) ++ unread) /\
  (forall r, In r (handled (fst (log_listener sink (pre ++ QNone :: post)))) ->
             In (QRecord r) pre).
Proof.
  split.
  { destruct (setup_failed_or_not w) as [[Htq Hpl] | Hfail].
    - destruct (count_teardown_calls p w Htq Hpl) as [-> _]. lia.
    - destruct (setup_failed_calls p w Hfail) as (_ & _ & _ & _ & -> & _).
      lia. }
  split; [apply listener_ignores_after_sentinel |].
  split; [apply listener_sentinel_not_waiting, in_or_app; right; left; reflexivity |].
  destruct (listener_reads_up_to_sentinel sink pre post) as [unread Hread].
  split; [exists unread; exact Hread |].
  intros r Hin. apply listener_handled_dequeued in Hin.
  assert (In (QRecord r) (pre ++ [QNone])) as Hin'
    by (rewrite Hread; apply in_or_app; left; exact Hin).
  apply in_app_or in Hin' as [Hin' | [Hin' | []]]; [exact Hin' | discriminate].
Qed.

(** C9: wherever [pool.join()] is called, the sentinel has been put on the
    log queue and the pool closed just before it, and there is no other
    [pool.join()] in the run; every call that came to its pool does so, on
    every exit path.  So for whatever the workers still enqueue between the
    two (the items [late]), the listener, once it reaches the sentinel,
    stops without reading them. *)
Theorem C9_sentinel_before_pool_join (p : params) (w : world)
    (sink : string -> log_record -> result unit) (early late : list qitem) :
  (forall a b,
     trace (exec_progress_pool p w) = a ++ EvPoolJoin :: b ->
     exists head,
       a = head ++ [EvPutNowait (log_queue_of p) QNone; EvPoolClose] /\
       count is_pool_join head = 0 /\
       count is_pool_join b = 0) /\
  (tqdm_error w = None ->
   pool_error w = None ->
   exists head tail,
     trace (exec_progress_pool p w)
     = head ++ EvPutNowait (log_queue_of p) QNone
            :: EvPoolClose :: EvPoolJoin :: tail /\
     count is_pool_join head = 0 /\
     count is_pool_join tail = 0) /\
  snd (log_listener sink (early ++ QNone :: late)) <> Waiting /\
  (exists unread,
     early ++ [QNone]
     = dequeued (fst (log_listener sink (early ++ QNone :: late))) ++ unread).
Proof.
  assert (tqdm_error w = None -> pool_error w = None ->
          exists head tail,
            trace (exec_progress_pool p w)
            = head ++ EvPutNowait (log_queue_of p) QNone
                   :: EvPoolClose :: EvPoolJoin :: tail /\
            count is_pool_join head = 0 /\
            count is_pool_join tail = 0) as Hstarted.
  { intros Htq Hpl.
    destruct (exec_progress_pool_split p w Htq Hpl) as [_ Htr].
    eexists. eexists. split; [exact Htr |].
    pose proof (pull_results_loop_events p (imap_unordered w (task_arguments p)))
      as Hloop.
    split.
    + apply before_teardown_counts; try assumption; try reflexivity.
      intros [] Hev; try discriminate; reflexivity.
    + destruct (outcome _); reflexivity. }
  split; [| split; [exact Hstarted | split]].
  - intros a b Heq.
    destruct (setup_failed_or_not w) as [[Htq Hpl] | Hfail].
    + destruct (Hstarted Htq Hpl) as (head & tail & Htr & Hhead & Htail).
      rewrite Htr in Heq.
      assert (count is_pool_join a = 0) as Ha.
      { assert (count is_pool_join (a ++ EvPoolJoin :: b) = 1) as Hone.
        { rewrite <- Heq, count_app. simpl. rewrite Hhead, Htail.
          reflexivity. }
        rewrite count_app in Hone. simpl in Hone. lia. }
      change (head ++ EvPutNowait (log_queue_of p) QNone
                   :: EvPoolClose :: EvPoolJoin :: tail)
        with (head ++ [EvPutNowait (log_queue_of p) QNone; EvPoolClose]
                   ++ EvPoolJoin :: tail) in Heq.
      rewrite app_assoc in Heq.
      apply (single_occurrence_split is_pool_join) in Heq as [-> ->];
        [| rewrite count_app, Hhead; reflexivity | reflexivity | exact Ha].
      exists head. rewrite count_app in Ha. simpl in Ha.
      repeat split; [exact Hhead | exact Htail].
    + exfalso.
      destruct (setup_failed_calls p w Hfail) as (_ & _ & _ & _ & _ & _ & Hj & _).
      rewrite Heq, count_app in Hj. simpl in Hj. lia.
  - apply listener_sentinel_not_waiting, in_or_app. right. left. reflexivity.
  - apply listener_reads_up_to_sentinel.
Qed.

(** ** Worker initialization *)

(** Once [tqdm(...)] has returned, the pool's constructor is called with the
    initializer of the chosen variant, bound to the log queue, the setup
    callback and the dispatcher's log level. *)
Lemma exec_progress_pool_creates_pool (p : params) (w : world) :
  tqdm_error w = None ->
  In (EvPool (pool_class_of p) (max_workers p) (initializer_of p)
        (log_queue_of p, worker_callback_of p, dispatcher_loglevel w))
     (trace (exec_progress_pool p w)).
Proof.
  intros Htq. destruct (pool_error w) as [e|] eqn:Hpl.
  - rewrite (exec_progress_pool_pool_raises p w e Htq Hpl).
    unfold pool_failed_calls. simpl. tauto.
  - rewrite (exec_progress_pool_unfold p w Htq Hpl). cbn [trace fst].
    apply in_or_app. left. unfold prologue. simpl. tauto.
Qed.

(** The pool's constructor is called nowhere else, and with nothing else. *)
Lemma exec_progress_pool_only_pool (p : params) (w : world) (ev : event) :
  In ev (trace (exec_progress_pool p w)) ->
  is_pool_new ev = true ->
  ev = EvPool (pool_class_of p) (max_workers p) (initializer_of p)
         (log_queue_of p, worker_callback_of p, dispatcher_loglevel w).
Proof.
  intros Hin Hev.
  destruct (setup_cases w) as [[Htq Hpl] | [[e Htq] | [Htq [e Hpl]]]].
  - rewrite (exec_progress_pool_unfold p w Htq Hpl) in Hin.
    cbn [trace fst] in Hin.
    pose proof (pull_results_loop_events p
                  (imap_unordered w (task_arguments p))) as Hloop.
    apply in_app_or in Hin as [Hin | Hin].
    + unfold prologue in Hin. simpl in Hin.
      destruct Hin as [<- | [<- | [<- | [<- | [<- | []]]]]];
        try discriminate. reflexivity.
    + apply in_app_or in Hin as [Hin | Hin].
      * rewrite List.Forall_forall in Hloop. apply Hloop in Hin.
        destruct ev; discriminate.
      * exfalso. destruct (outcome _) as [[]|e]; unfold epilogue in Hin.
        -- simpl in Hin.
           destruct Hin as [<- | [<- | [<- | [<- | [<- | []]]]]];
             discriminate.
        -- unfold except_events in Hin.
           apply in_app_or in Hin as [Hin | Hin].
           ++ destruct (isinstance e cls_KeyboardInterrupt);
                [destruct Hin as [<- | []]; discriminate |].
              destruct (isinstance e cls_Exception); [| destruct Hin].
              destruct (inside_pytest w);
                [destruct Hin | destruct Hin as [<- | []]; discriminate].
           ++ simpl in Hin.
              destruct Hin as [<- | [<- | [<- | [<- | []]]]]; discriminate.
  - rewrite (exec_progress_pool_tqdm_raises p w e Htq) in Hin.
    simpl in Hin. destruct Hin as [<- | [<- | [<- | []]]]; discriminate.
  - rewrite (exec_progress_pool_pool_raises p w e Htq Hpl) in Hin.
    simpl in Hin.
    destruct Hin as [<- | [<- | [<- | [<- | [<- | []]]]]];
      try discriminate. reflexivity.
Qed.

(** A worker of the pool calls its initializer once, first, and executes its
    tasks after the initializer has returned. *)
Lemma pool_worker_initializes_first (init : initializer) (q : queue_ref)
    (user_init : user_callback) (loglevel : Z) (tasks : list value)
    (ws : worker_state) :
  exists later,
    fst (pool_worker init (q, user_init, loglevel) tasks ws)
    = WInitializer (fst (init q user_init loglevel ws)) :: later /\
    count is_initializer later = 0 /\
    (fst (init q user_init loglevel ws) = Ok tt -> later = map WTask tasks) /\
    snd (pool_worker init (q, user_init, loglevel) tasks ws)
    = snd (init q user_init loglevel ws).
Proof.
  unfold pool_worker. destruct (init q user_init loglevel ws) as [r ws'].
  cbn [fst snd]. eexists. split; [reflexivity |].
  destruct r as [[]|e]; repeat split; try discriminate.
  induction tasks as [|a tasks IH]; [reflexivity | exact IH].
Qed.

(** C6, as stated, fails: where the [signal] module has no SIGBUS,
    [process_init] returns without having installed any handler for it. *)
Lemma C6_counterexample :
  hasattr_signal SIGBUS ws_no_sigbus = false /\
  fst (process_init MultiprocessingQueue _noop 30 ws_no_sigbus) = Ok tt /\
  dispositions (snd (process_init MultiprocessingQueue _noop 30 ws_no_sigbus))
    !! SIGBUS = None.
Proof. repeat split; vm_compute; reflexivity. Qed.

(** C6, amended: in process mode the pool is given [process_init], bound to
    the log queue, the setup callback and the dispatcher's log level, as
    its initializer; a worker of the pool runs it once, before any task.
    [process_init] sets SIGINT to be ignored, installs [process_sigbus] for
    SIGBUS where the [signal] module has SIGBUS, sets the root logger's
    level to the given level and its handlers to the single queue handler,
    and then calls the setup callback, whose outcome is its own;
    [process_sigbus], whatever it is called with, raises [InputFileError]. *)
Theorem C6_process_init_configures_worker :
  (forall p w,
     use_threads p = false ->
     tqdm_error w = None ->
     In (EvPool ProcessPool (max_workers p) process_init
           (MultiprocessingQueue, worker_callback_of p, dispatcher_loglevel w))
        (trace (exec_progress_pool p w))) /\
  (forall (q : queue_ref) (loglevel : Z) (ws : worker_state),
   exists ws',
     (forall user_init,
        process_init q user_init loglevel ws = py_call user_init ws') /\
     (forall user_init tasks,
      exists later,
        fst (pool_worker process_init (q, user_init, loglevel) tasks ws)
        = WInitializer (fst (py_call user_init ws')) :: later /\
        count is_initializer later = 0 /\
        (fst (py_call user_init ws') = Ok tt -> later = map WTask tasks)) /\
     dispositions ws' !! SIGINT = Some SIG_IGN /\
     (hasattr_signal SIGBUS ws = true ->
      dispositions ws' !! SIGBUS = Some (PyHandler process_sigbus)) /\
     (hasattr_signal SIGBUS ws = false ->
      dispositions ws' !! SIGBUS = dispositions ws !! SIGBUS) /\
     root_level ws' = loglevel /\
     root_handlers ws' = [QueueHandler q] /\
     sigmask ws' = sigmask ws) /\
  (forall s : signum,
     process_sigbus s
     = Raise (InputFileError "A worker process lost access to an input file")).
Proof.
  split; [| split; [| reflexivity]].
  - intros p w Hproc Htq.
    pose proof (exec_progress_pool_creates_pool p w Htq) as Hin.
    unfold pool_class_of, initializer_of, log_queue_of in Hin.
    rewrite Hproc in Hin. exact Hin.
  - intros q loglevel ws.
    assert (exists ws',
              (forall user_init,
                 process_init q user_init loglevel ws = py_call user_init ws')
              /\ dispositions ws' !! SIGINT = Some SIG_IGN
              /\ (hasattr_signal SIGBUS ws = true ->
                  dispositions ws' !! SIGBUS = Some (PyHandler process_sigbus))
              /\ (hasattr_signal SIGBUS ws = false ->
                  dispositions ws' !! SIGBUS = dispositions ws !! SIGBUS)
              /\ root_level ws' = loglevel
              /\ root_handlers ws' = [QueueHandler q]
              /\ sigmask ws' = sigmask ws) as (ws' & Hcall & Hrest).
    { unfold process_init.
      change (hasattr_signal SIGBUS (signal_signal SIGINT SIG_IGN ws))
        with (hasattr_signal SIGBUS ws).
      destruct (hasattr_signal SIGBUS ws) eqn:Hsb;
        (eexists; split; [intros user_init; reflexivity |]); simpl.
      - rewrite lookup_insert_ne by discriminate. rewrite !lookup_insert_eq.
        split; [reflexivity |].
        split; [reflexivity |].
        split; [discriminate |]. repeat split.
      - rewrite lookup_insert_eq, lookup_insert_ne by discriminate.
        split; [reflexivity |].
        split; [discriminate |]. repeat split. }
    exists ws'. split; [exact Hcall |]. split; [| exact Hrest].
    intros user_init tasks.
    destruct (pool_worker_initializes_first process_init q user_init loglevel
                tasks ws) as (later & Hfirst & Honce & Htasks & _).
    rewrite (Hcall user_init) in Hfirst, Htasks.
    exists later. auto.
Qed.

(** C6 (amended) at the call of three tasks in process mode and a forked
    worker on a platform with SIGBUS. *)
Lemma C6_witness :
  In (EvPool ProcessPool 2 process_init (MultiprocessingQueue, _noop, 30%Z))
     (trace (exec_progress_pool p_abc w_plain)) /\
  dispositions (snd (process_init MultiprocessingQueue _noop 30 ws_posix))
    !! SIGBUS = Some (PyHandler process_sigbus) /\
  root_handlers (snd (process_init MultiprocessingQueue _noop 30 ws_posix))
  = [QueueHandler MultiprocessingQueue].
Proof.
  destruct C6_process_init_configures_worker as (Hpool & Hinit & _).
  split; [exact (Hpool p_abc w_plain eq_refl eq_refl) |].
  destruct (Hinit MultiprocessingQueue 30%Z ws_posix)
    as (ws' & Hcall & _ & _ & Hbus & _ & _ & Hhandlers & _).
  rewrite (Hcall _noop). cbn [_noop py_call snd].
  split; [apply Hbus; vm_compute; reflexivity | exact Hhandlers].
Defined.

(** C7, as stated, fails: where the [signal] module has no SIGBUS,
    [thread_init] returns with the thread's signal mask as it was, SIGBUS
    not among the blocked signals, and a fault raised for the thread stays
    with the thread. *)
Lemma C7_counterexample :
  hasattr_signal SIGBUS ws_no_sigbus = false /\
  fst (thread_init QueueQueue _noop 30 ws_no_sigbus) = Ok tt /\
  bool_decide
    (SIGBUS ∈ sigmask (snd (thread_init QueueQueue _noop 30 ws_no_sigbus)))
  = false /\
  fault_recipient SIGBUS (snd (thread_init QueueQueue _noop 30 ws_no_sigbus))
  = ThisThread.
Proof. repeat split; vm_compute; reflexivity. Qed.

(** C7, amended: in thread mode the pool is given [thread_init], bound to
    the log queue, the setup callback and the dispatcher's log level, as
    its initializer; a worker of the pool runs it once, before any task.
    Where the [signal] module has SIGBUS, [thread_init] adds SIGBUS to the
    blocked signals of that thread, so that a fault raised for it goes to
    the main thread; it changes neither the signal dispositions nor the root
    logger, and then calls the setup callback, whose outcome is its own. *)
Theorem C7_thread_init_blocks_sigbus :
  (forall p w,
     use_threads p = true ->
     tqdm_error w = None ->
     In (EvPool ThreadPool (max_workers p) thread_init
           (QueueQueue, worker_callback_of p, dispatcher_loglevel w))
        (trace (exec_progress_pool p w))) /\
  (forall (q : queue_ref) (loglevel : Z) (ws : worker_state),
   exists ws',
     (forall user_init,
        thread_init q user_init loglevel ws = py_call user_init ws') /\
     (forall user_init tasks,
      exists later,
        fst (pool_worker thread_init (q, user_init, loglevel) tasks ws)
        = WInitializer (fst (py_call user_init ws')) :: later /\
        count is_initializer later = 0 /\
        (fst (py_call user_init ws') = Ok tt -> later = map WTask tasks)) /\
     (hasattr_signal SIGBUS ws = true ->
      sigmask ws' = sigmask ws ∪ {[ SIGBUS ]} /\
      fault_recipient SIGBUS ws' = MainThread) /\
     (hasattr_signal SIGBUS ws = false -> sigmask ws' = sigmask ws) /\
     dispositions ws' = dispositions ws /\
     root_level ws' = root_level ws /\
     root_handlers ws' = root_handlers ws).
Proof.
  split.
  - intros p w Hthr Htq.
    pose proof (exec_progress_pool_creates_pool p w Htq) as Hin.
    unfold pool_class_of, initializer_of, log_queue_of in Hin.
    rewrite Hthr in Hin. exact Hin.
  - intros q loglevel ws.
    assert (exists ws',
              (forall user_init,
                 thread_init q user_init loglevel ws = py_call user_init ws')
              /\ (hasattr_signal SIGBUS ws = true ->
                  sigmask ws' = sigmask ws ∪ {[ SIGBUS ]} /\
                  fault_recipient SIGBUS ws' = MainThread)
              /\ (hasattr_signal SIGBUS ws = false -> sigmask ws' = sigmask ws)
              /\ dispositions ws' = dispositions ws
              /\ root_level ws' = root_level ws
              /\ root_handlers ws' = root_handlers ws) as (ws' & Hcall & Hrest).
    { unfold thread_init.
      destruct (hasattr_signal SIGBUS ws) eqn:Hsb;
        (eexists; split; [intros user_init; reflexivity |]).
      - split.
        { intros _. split; [reflexivity |].
          unfold fault_recipient. simpl.
          rewrite bool_decide_eq_true_2; [reflexivity |].
          apply elem_of_union_r, elem_of_singleton. reflexivity. }
        split; [discriminate |]. repeat split.
      - split; [discriminate |]. repeat split. }
    exists ws'. split; [exact Hcall |]. split; [| exact Hrest].
    intros user_init tasks.
    destruct (pool_worker_initializes_first thread_init q user_init loglevel
                tasks ws) as (later & Hfirst & Honce & Htasks & _).
    rewrite (Hcall user_init) in Hfirst, Htasks.
    exists later. auto.
Qed.

(** C7 (amended) at the call of three tasks in thread mode and a worker
    thread on a platform with SIGBUS. *)
Lemma C7_witness :
  In (EvPool ThreadPool 2 thread_init (QueueQueue, _noop, 30%Z))
     (trace (exec_progress_pool p_threads w_plain)) /\
  fault_recipient SIGBUS (snd (thread_init QueueQueue _noop 30 ws_posix))
  = MainThread /\
  root_handlers (snd (thread_init QueueQueue _noop 30 ws_posix))
  = [LocalHandler "stderr"].
Proof.
  destruct C7_thread_init_blocks_sigbus as (Hpool & Hinit).
  split; [exact (Hpool p_threads w_plain eq_refl eq_refl) |].
  destruct (Hinit QueueQueue 30%Z ws_posix)
    as (ws' & Hcall & _ & Hmask & _ & _ & _ & Hhandlers).
  rewrite (Hcall _noop). cbn [_noop py_call snd].
  split; [apply Hmask; vm_compute; reflexivity | exact Hhandlers].
Defined.

(** C10: the run of a call in process mode that leaves [task_initializer]
    at [None], where worker processes are spawned.  The pool's constructor is
    called with the nested function [_noop] in the callback's place and
    raises, as [_noop] cannot be pickled for the workers; the call leaves
    with that exception, and no worker is ever initialized. *)
Theorem C10_spawned_pool_refuses_noop :
  exec_progress_pool p_abc w_spawn
  = ([ EvQueue MultiprocessingQueue; EvListenerStart MultiprocessingQueue;
       EvTqdmEnter ∅;
       EvPool ProcessPool 2 process_init (MultiprocessingQueue, _noop, 30%Z);
       EvTqdmExit ],
     Raise
       (AttributeError
          "Can't pickle local object 'exec_progress_pool.<locals>._noop'")).
Proof. reflexivity. Qed.

(** X16: when [task_initializer] is false ([None] included) and
    [tqdm(...)] has returned, the pool's constructor is called with the
    no-op [_noop] in the callback's place; the initializer of either
    variant, run with [_noop] on any worker, returns normally after the
    variant's own signal and logging setup. *)
Theorem noop_replaces_missing_callback (p : params) (w : world) :
  py_bool (task_initializer p) = false ->
  tqdm_error w = None ->
  In (EvPool (pool_class_of p) (max_workers p) (initializer_of p)
        (log_queue_of p, _noop, dispatcher_loglevel w))
     (trace (exec_progress_pool p w)) /\
  initializer_of p = (if use_threads p then thread_init else process_init) /\
  forall ws : worker_state,
  exists ws',
    initializer_of p (log_queue_of p) _noop (dispatcher_loglevel w) ws
    = (Ok tt, ws') /\
    if use_threads p
    then sigmask ws'
         = (if hasattr_signal SIGBUS ws
            then sigmask ws ∪ {[ SIGBUS ]}
            else sigmask ws)
    else dispositions ws' !! SIGINT = Some SIG_IGN /\
         dispositions ws' !! SIGBUS
         = (if hasattr_signal SIGBUS ws
            then Some (PyHandler process_sigbus)
            else dispositions ws !! SIGBUS) /\
         root_level ws' = dispatcher_loglevel w /\
         root_handlers ws' = [QueueHandler (log_queue_of p)].
Proof.
  intros Hfalse Htq.
  split.
  { pose proof (exec_progress_pool_creates_pool p w Htq) as Hin.
    unfold worker_callback_of in Hin. rewrite Hfalse in Hin. exact Hin. }
  split; [reflexivity |].
  intros ws. unfold initializer_of.
  destruct (use_threads p).
  - unfold thread_init.
    destruct (hasattr_signal SIGBUS ws); eexists; split; reflexivity.
  - unfold process_init.
    change (hasattr_signal SIGBUS (signal_signal SIGINT SIG_IGN ws))
      with (hasattr_signal SIGBUS ws).
    destruct (hasattr_signal SIGBUS ws);
      (eexists; split; [reflexivity |]); simpl.
    + rewrite lookup_insert_ne by discriminate. rewrite !lookup_insert_eq.
      repeat split.
    + rewrite lookup_insert_eq, lookup_insert_ne by discriminate.
      repeat split.
Qed.

(** A call that leaves [task_initializer] at its default [None], in process
    mode. *)
Lemma noop_replaces_missing_callback_witness :
  In (EvPool ProcessPool 2 process_init (MultiprocessingQueue, _noop, 30%Z))
     (trace (exec_progress_pool p_abc w_plain)) /\
  fst (process_init MultiprocessingQueue _noop 30 ws_posix) = Ok tt.
Proof.
  destruct (noop_replaces_missing_callback p_abc w_plain eq_refl eq_refl)
    as (Hpool & _ & Hinit).
  split; [exact Hpool |].
  destruct (Hinit ws_posix) as (ws' & Heq & _).
  change (initializer_of p_abc (log_queue_of p_abc) _noop
            (dispatcher_loglevel w_plain) ws_posix)
    with (process_init MultiprocessingQueue _noop 30 ws_posix) in Heq.
  rewrite Heq. reflexivity.
Defined.

(** * Further properties of the dispatcher *)

Lemma count_zero_Forall {E} (f : E -> bool) (tr : list E) :
  Forall (fun ev => f ev = false) tr -> count f tr = 0.
Proof.
  induction 1 as [|ev tr Hev _ IH]; [reflexivity |].
  simpl. rewrite Hev, IH. reflexivity.
Qed.

(** X1: in a call that came to its pool, [pool.terminate()] is called
    exactly when one of the two [except] clauses is entered: never on a
    normal return, once on [KeyboardInterrupt], once on an [Exception]
    unless [PYTEST_CURRENT_TEST] is non-empty, and never for another
    [BaseException] raised by the completion callback, which passes both
    clauses and still gets the teardown.  In a call in which [tqdm(...)] or
    the pool's constructor raised, [pool.terminate()] is not called. *)
Theorem pool_terminate_by_outcome (p : params) (w : world) :
  count is_pool_terminate (trace (exec_progress_pool p w))
  = match tqdm_error w, pool_error w with
    | None, None =>
        match outcome (exec_progress_pool p w) with
        | Ok _ => 0
        | Raise e =>
            if isinstance e cls_KeyboardInterrupt then 1
            else if isinstance e cls_Exception
                 then (if str_bool (environ_get (os_environ w)
                                      "PYTEST_CURRENT_TEST" "")
                       then 0 else 1)
                 else 0
        end
    | _, _ => 0
    end.
Proof.
  destruct (setup_failed_or_not w) as [[Htq Hpl] | Hfail].
  - rewrite Htq, Hpl.
    rewrite (exec_progress_pool_unfold p w Htq Hpl).
    cbn [trace outcome fst snd].
    pose proof (pull_results_loop_events p
                  (imap_unordered w (task_arguments p))) as Hloop.
    assert (forall ev, is_loop_event ev = true -> is_pool_terminate ev = false)
      as Hnot by (intros [] Hev; try discriminate; reflexivity).
    rewrite !count_app, (count_none _ _ _ Hnot Hloop).
    destruct (outcome _) as [[]|e]; [reflexivity |].
    unfold epilogue, except_events, inside_pytest. rewrite count_app.
    destruct (isinstance e cls_KeyboardInterrupt); [reflexivity |].
    destruct (isinstance e cls_Exception); [| reflexivity].
    destruct (str_bool _); reflexivity.
  - destruct (setup_failed_calls p w Hfail) as (_ & _ & _ & -> & _).
    destruct (tqdm_error w); [reflexivity |].
    destruct (pool_error w); [reflexivity |].
    destruct Hfail; congruence.
Qed.

Section LoopFurther.

Variable p : params.

Local Abbreviation pull := (pull_results (task p) (task_finished p)).

(** Inside the loop the progress bar is never updated when a completion
    callback is given, and the callback is never called when it is not. *)
Lemma pull_results_one_reporter (it : list step) :
  Forall (fun ev => (if py_bool (task_finished p)
                     then is_pbar_update ev
                     else is_task_finished ev) = false)
         (trace (pull it)).
Proof.
  induction it as [|s rest IH].
  - destruct (py_bool (task_finished p)); repeat constructor.
  - destruct s as [a|];
      [| destruct (py_bool (task_finished p)); repeat constructor].
    simpl. unfold loop_iteration, results_next, call_task_finished, pbar_update.
    simpl. destruct (task p a) as [v|e]; simpl.
    + destruct (py_bool (task_finished p)) eqn:Hb; simpl.
      * destruct (py_call (task_finished p) v) as [[]|e]; simpl.
        -- destruct (pull_results _ _ rest) as [tr r]; simpl in *.
           repeat constructor. exact IH.
        -- destruct (isinstance e cls_StopIteration); repeat constructor.
      * destruct (pull_results _ _ rest) as [tr r]; simpl in *.
        repeat constructor. exact IH.
    + destruct (isinstance e cls_StopIteration);
        destruct (py_bool (task_finished p)); repeat constructor.
Qed.

(** The values handed to the callback are the results of the tasks the
    iterator delivers, in its order and without gaps, up to the first task
    or callback call that raises. *)
Lemma pull_results_reported (l : list value) (tail : list step) :
  py_bool (task_finished p) = true ->
  finished_values (trace (pull tail)) = [] ->
  finished_values (trace (pull (map Completed l ++ tail))) = reported p l.
Proof.
  intros Hb Htail. induction l as [|a l IH].
  - cbn [map app reported]. exact Htail.
  - cbn [map app reported]. simpl pull_results.
    unfold loop_iteration, results_next, call_task_finished, pbar_update.
    simpl. destruct (task p a) as [v|e]; simpl.
    + rewrite Hb; simpl.
      destruct (py_call (task_finished p) v) as [[]|e]; simpl.
      * destruct (pull_results _ _ (map Completed l ++ tail)) as [tr r].
        simpl in *. rewrite IH. reflexivity.
      * destruct (isinstance e cls_StopIteration); reflexivity.
    + destruct (isinstance e cls_StopIteration); reflexivity.
Qed.

(** Where every task returns and the callback accepts every result, the
    callback is called on all of them. *)
Lemma reported_all (l : list value) :
  py_bool (task_finished p) = true ->
  Forall (completes p) l ->
  map Ok (reported p l) = map (task p) l.
Proof.
  intros Hb. induction 1 as [|a l (v & Ht & Hcb) _ IH]; [reflexivity |].
  cbn [reported map]. rewrite Ht, (Hcb Hb). cbn [map]. rewrite IH.
  reflexivity.
Qed.

(** A failure of the completion callback leaves the loop with the
    callback's exception. *)
Lemma pull_results_callback_failed (a : value) (v : value) (rest : list step)
    (e : exn) :
  task p a = Ok v ->
  py_bool (task_finished p) = true ->
  py_call (task_finished p) v = Raise e ->
  isinstance e cls_StopIteration = false ->
  pull (Completed a :: rest) = ([EvNext; EvTaskFinished v], Raise e).
Proof.
  intros Ht Hb Hcall He. simpl.
  unfold loop_iteration, results_next, call_task_finished; simpl.
  rewrite Ht; simpl. rewrite Hb; simpl. rewrite Hcall; simpl.
  rewrite He. reflexivity.
Qed.

End LoopFurther.

Lemma finished_values_outside_loop (p : params) (w : world) (r : result unit) :
  finished_values (prologue p w) = [] /\
  finished_values (epilogue p w r) = [].
Proof.
  split; [reflexivity |].
  destruct r as [[]|e]; [reflexivity |].
  unfold epilogue, except_events. rewrite finished_values_app.
  destruct (isinstance e cls_KeyboardInterrupt); [reflexivity |].
  destruct (isinstance e cls_Exception); [| reflexivity].
  destruct (inside_pytest w); reflexivity.
Qed.

(** X2: Whichever way the call ends, the progress bar is never updated by the
    dispatcher when a completion callback is given, and the callback is
    never called when [task_finished] is false. *)
Theorem one_reporter_per_call (p : params) (w : world) :
  if py_bool (task_finished p)
  then count is_pbar_update (trace (exec_progress_pool p w)) = 0
  else count is_task_finished (trace (exec_progress_pool p w)) = 0.
Proof.
  destruct (setup_failed_or_not w) as [[Htq Hpl] | Hfail].
  2: { destruct (setup_failed_calls p w Hfail) as ([-> | ->] & _);
         destruct (py_bool (task_finished p)); reflexivity. }
  rewrite (exec_progress_pool_unfold p w Htq Hpl). cbn [trace fst].
  pose proof (pull_results_one_reporter p (imap_unordered w (task_arguments p)))
    as Hloop.
  assert (forall f, f EvPoolTerminate = false ->
                    count f (teardown p) = 0 -> f EvTqdmExit = false ->
                    f EvListenerJoin = false ->
                    forall r, count f (epilogue p w r) = 0) as Hepi.
  { intros f Hterm Htear Hexit Hjoin [[]|e]; unfold epilogue, except_events;
      rewrite !count_app, Htear; simpl; rewrite ?Hexit, ?Hjoin;
      [reflexivity |].
    destruct (isinstance e cls_KeyboardInterrupt); simpl;
      [rewrite Hterm; reflexivity |].
    destruct (isinstance e cls_Exception); [| reflexivity].
    destruct (inside_pytest w); simpl; [| rewrite Hterm]; reflexivity. }
  destruct (py_bool (task_finished p));
    rewrite !count_app, (count_zero_Forall _ _ Hloop), Hepi; reflexivity.
Qed.

(** What the iterator holds: the delivered tasks, and then SIGINT if it
    arrives. *)
Lemma imap_unordered_delivered (w : world) (args : list value) :
  imap_unordered w args
  = map Completed (delivered w args)
    ++ match sigint_at w with None => [] | Some _ => [Interrupted] end.
Proof.
  unfold imap_unordered, delivered. destruct (sigint_at w) as [k|].
  - rewrite firstn_map. reflexivity.
  - rewrite app_nil_r. reflexivity.
Qed.

(** X3: when a completion callback is given, the values handed to it are the
    results of the tasks in the order in which the tasks completed, none
    skipped and none twice, from the first to complete up to where the loop
    is left: the first task that raised (whose result is not handed over),
    the first result on which the callback raised (handed over last), SIGINT
    during [results.next()], or the end of the iterator.  So when every
    delivered task returns and the callback accepts every result, the
    callback has seen exactly the results of the delivered tasks, in
    completion order. *)
Theorem callback_sees_completion_order (p : params) (w : world) :
  py_bool (task_finished p) = true ->
  finished_values (trace (exec_progress_pool p w))
  = reported p (delivered w (task_arguments p)) /\
  (Forall (completes p) (delivered w (task_arguments p)) ->
   map Ok (finished_values (trace (exec_progress_pool p w)))
   = map (task p) (delivered w (task_arguments p))).
Proof.
  intros Hb.
  assert (finished_values (trace (exec_progress_pool p w))
          = reported p (delivered w (task_arguments p))) as Hrep.
  { destruct (setup_failed_or_not w) as [[Htq Hpl] | Hfail].
    - rewrite (exec_progress_pool_unfold p w Htq Hpl). cbn [trace fst].
      rewrite !finished_values_app.
      destruct (finished_values_outside_loop p w
                  (outcome (pull_results (task p) (task_finished p)
                              (imap_unordered w (task_arguments p)))))
        as [-> ->].
      rewrite app_nil_r, app_nil_l, imap_unordered_delivered.
      apply pull_results_reported; [exact Hb |].
      destruct (sigint_at w); reflexivity.
    - assert (delivered w (task_arguments p) = []) as ->.
      { unfold delivered, completion_order.
        destruct (tqdm_error w);
          [destruct (sigint_at w) as [[|k]|]; reflexivity |].
        destruct (pool_error w);
          [destruct (sigint_at w) as [[|k]|]; reflexivity |].
        destruct Hfail; congruence. }
      destruct (setup_failed_calls p w Hfail) as ([-> | ->] & _); reflexivity. }
  split; [exact Hrep |].
  intros Hdone. rewrite Hrep. apply reported_all; assumption.
Qed.

(** The callback run: the three results arrive in reverse order of
    submission, as they completed; and the run in which the callback fails
    on the second result to arrive. *)
Lemma callback_sees_completion_order_witness :
  finished_values (trace (exec_progress_pool p_callback w_plain))
  = ["c!"; "b!"; "a!"] /\
  finished_values (trace (exec_progress_pool p_callback_fail w_plain))
  = ["c!"; "b!"].
Proof.
  split.
  - exact (proj1 (callback_sees_completion_order p_callback w_plain eq_refl)).
  - exact (proj1 (callback_sees_completion_order p_callback_fail w_plain
                    eq_refl)).
Defined.

(** X4: A task that raises [StopIteration] is taken for the end of the
    iterator: the loop breaks, the call returns normally with the full
    teardown, [pool.terminate()] is not called, and the tasks that complete
    later are never pulled. *)
Theorem task_stop_iteration_ends_quietly (p : params) (w : world)
    (pre : list value) (a : value) (post : list value) :
  sigint_at w = None ->
  completion_order w (task_arguments p) = pre ++ a :: post ->
  Forall (completes p) pre ->
  task p a = Raise StopIteration ->
  exec_progress_pool p w
  = (prologue p w
     ++ flat_map (pass_events p) pre
     ++ [EvNext]
     ++ teardown p ++ [EvTqdmExit; EvListenerJoin],
     Ok tt).
Proof.
  intros Hsig Horder Hpre Ha.
  destruct (started_by_order w _ _ _ _ Horder) as [Htq Hpl].
  assert (pull_results (task p) (task_finished p)
            (imap_unordered w (task_arguments p))
          = (flat_map (pass_events p) pre ++ [EvNext], Ok tt)) as Hpull.
  { unfold imap_unordered. rewrite Hsig, Horder, map_app.
    rewrite (pull_results_prefix p pre _ Hpre). cbn [map].
    rewrite (pull_results_stop_iteration p a _ Ha). reflexivity. }
  rewrite (exec_progress_pool_unfold p w Htq Hpl), Hpull.
  cbn [trace outcome fst snd epilogue].
  rewrite <- !app_assoc. reflexivity.
Qed.

(** Three tasks of which the second to complete raises [StopIteration]:
    one progress tick, a normal return, the third task never pulled. *)
Lemma task_stop_iteration_ends_quietly_witness :
  exec_progress_pool p_stop w_plain
  = (prologue p_stop w_plain
     ++ [EvNext; EvPbarUpdate]
     ++ [EvNext]
     ++ teardown p_stop ++ [EvTqdmExit; EvListenerJoin],
     Ok tt).
Proof.
  apply (task_stop_iteration_ends_quietly p_stop w_plain ["c"] "b" ["a"]);
    try reflexivity.
  constructor; [| constructor].
  exists "c". split; [reflexivity | discriminate].
Defined.

(** X6: An exception raised by the completion callback is handled like the
    failure of a task: the loop is left at once, the matching [except]
    clause runs, then the teardown, and the callback's exception leaves
    the call.  [listener.join()] is not reached. *)
Theorem callback_failure_propagates (p : params) (w : world)
    (pre : list value) (a v : value) (post : list value) (e : exn) :
  sigint_at w = None ->
  completion_order w (task_arguments p) = pre ++ a :: post ->
  Forall (completes p) pre ->
  task p a = Ok v ->
  py_bool (task_finished p) = true ->
  py_call (task_finished p) v = Raise e ->
  isinstance e cls_StopIteration = false ->
  exec_progress_pool p w
  = (prologue p w
     ++ flat_map (pass_events p) pre
     ++ [EvNext; EvTaskFinished v]
     ++ (if isinstance e cls_KeyboardInterrupt then [EvPoolTerminate]
         else if isinstance e cls_Exception
              then (if str_bool (environ_get (os_environ w)
                                   "PYTEST_CURRENT_TEST" "")
                    then [] else [EvPoolTerminate])
              else [])
     ++ teardown p ++ [EvTqdmExit],
     Raise e).
Proof.
  intros Hsig Horder Hpre Ha Hb Hcall He.
  destruct (started_by_order w _ _ _ _ Horder) as [Htq Hpl].
  assert (pull_results (task p) (task_finished p)
            (imap_unordered w (task_arguments p))
          = (flat_map (pass_events p) pre ++ [EvNext; EvTaskFinished v],
             Raise e)) as Hpull.
  { unfold imap_unordered. rewrite Hsig, Horder, map_app.
    rewrite (pull_results_prefix p pre _ Hpre). cbn [map].
    rewrite (pull_results_callback_failed p a v _ e Ha Hb Hcall He).
    reflexivity. }
  rewrite (exec_progress_pool_unfold p w Htq Hpl), Hpull.
  cbn [trace outcome fst snd epilogue].
  unfold except_events, inside_pytest.
  rewrite <- !app_assoc. reflexivity.
Qed.

(** The callback fails on the second result to arrive. *)
Lemma callback_failure_propagates_witness :
  exec_progress_pool p_callback_fail w_plain
  = (prologue p_callback_fail w_plain
     ++ [EvNext; EvTaskFinished "c!"]
     ++ [EvNext; EvTaskFinished "b!"]
     ++ [EvPoolTerminate]
     ++ teardown p_callback_fail ++ [EvTqdmExit],
     Raise (RuntimeError "callback failed")).
Proof.
  apply (callback_failure_propagates p_callback_fail w_plain ["c"] "b" "b!"
           ["a"] (RuntimeError "callback failed")); try reflexivity.
  constructor; [| constructor].
  exists "c!". split; reflexivity.
Defined.

Lemma last_occurrence_split {E} (f : E -> bool) (x : E) (l a b : list E) :
  count f l = 0 -> f x = true ->
  l ++ [x] = a ++ x :: b -> a = l /\ b = [].
Proof.
  intros Hl Hx. revert a. induction l as [|y l IH]; intros a Heq.
  - destruct a as [|z a]; simpl in Heq.
    + injection Heq as <-. split; reflexivity.
    + injection Heq as _ Heq. destruct a; discriminate.
  - simpl in Hl. destruct (f y) eqn:Hy; [discriminate |].
    destruct a as [|z a]; simpl in Heq.
    + injection Heq as -> _. congruence.
    + injection Heq as -> Heq.
      destruct (IH Hl a Heq) as [-> ->]. split; reflexivity.
Qed.

(** X7: [listener.join()] is only ever the last call of a normal return; by
    then the sentinel is on the log queue and the pool has been joined, so
    the join cannot wait for a sentinel that was never sent. *)
Theorem listener_joined_after_sentinel (p : params) (w : world)
    (a b : list event) :
  trace (exec_progress_pool p w) = a ++ EvListenerJoin :: b ->
  b = [] /\
  outcome (exec_progress_pool p w) = Ok tt /\
  count is_sentinel_put a = 1 /\
  count is_pool_join a = 1.
Proof.
  intros Heq.
  destruct (setup_failed_or_not w) as [[Htq Hpl] | Hfail].
  2: { exfalso.
       destruct (setup_failed_calls p w Hfail)
         as (_ & _ & _ & _ & _ & _ & _ & Hnone).
       rewrite Heq, count_app in Hnone. simpl in Hnone. lia. }
  destruct (exec_progress_pool_split p w Htq Hpl) as [Hout Htr].
  rewrite Hout. rewrite Htr in Heq. clear Htr Hout.
  pose proof (pull_results_loop_events p (imap_unordered w (task_arguments p)))
    as Hloop.
  set (m := pull_results (task p) (task_finished p)
              (imap_unordered w (task_arguments p))) in *.
  set (before := prologue p w ++ trace m ++
                   match outcome m with
                   | Ok _ => []
                   | Raise e => except_events w e
                   end) in *.
  assert (forall f,
            (forall ev, is_loop_event ev = true -> f ev = false) ->
            count f (prologue p w) = 0 -> f EvPoolTerminate = false ->
            count f before = 0) as Hbefore.
  { intros f H1 H2 H3. subst before.
    apply before_teardown_counts; assumption. }
  assert (count is_listener_join before = 0) as Hj.
  { apply Hbefore; try reflexivity.
    intros [] Hev; try discriminate; reflexivity. }
  assert (count is_sentinel_put before = 0) as Hs.
  { apply Hbefore; try reflexivity.
    intros [] Hev; try discriminate; reflexivity. }
  assert (count is_pool_join before = 0) as Hp.
  { apply Hbefore; try reflexivity.
    intros [] Hev; try discriminate; reflexivity. }
  destruct (outcome m) as [[]|e].
  - change (before ++ teardown p ++ [EvTqdmExit; EvListenerJoin])
      with (before ++ (teardown p ++ [EvTqdmExit]) ++ [EvListenerJoin]) in Heq.
    rewrite app_assoc in Heq.
    apply (last_occurrence_split is_listener_join) in Heq as [-> ->];
      [| rewrite count_app, Hj; reflexivity | reflexivity].
    rewrite !count_app, Hs, Hp. repeat split.
  - exfalso.
    assert (count is_listener_join (a ++ EvListenerJoin :: b) = 0) as Hnone
      by (rewrite <- Heq, !count_app, Hj; reflexivity).
    rewrite count_app in Hnone. simpl in Hnone. lia.
Qed.

(** The three-task run, cut at its [listener.join()]. *)
Lemma listener_joined_after_sentinel_witness :
  count is_sentinel_put
    (prologue p_abc w_plain
     ++ [EvNext; EvPbarUpdate; EvNext; EvPbarUpdate; EvNext; EvPbarUpdate;
         EvNext]
     ++ teardown p_abc ++ [EvTqdmExit]) = 1.
Proof.
  apply (listener_joined_after_sentinel p_abc w_plain _ []). reflexivity.
Defined.

(** X8: a true [task_initializer] is given to the pool as it is: once
    [tqdm(...)] has returned the pool's constructor is called with it, and
    the constructor is never called with anything else.  The initializer of
    either variant calls it last, on the worker it has just configured, and
    the callback's outcome, an exception included, is the initializer's
    outcome. *)
Theorem given_callback_runs_after_setup (p : params) (w : world) :
  py_bool (task_initializer p) = true ->
  (tqdm_error w = None ->
   In (EvPool (pool_class_of p) (max_workers p) (initializer_of p)
         (log_queue_of p, task_initializer p, dispatcher_loglevel w))
      (trace (exec_progress_pool p w))) /\
  (forall ev,
     In ev (trace (exec_progress_pool p w)) ->
     is_pool_new ev = true ->
     ev = EvPool (pool_class_of p) (max_workers p) (initializer_of p)
            (log_queue_of p, task_initializer p, dispatcher_loglevel w)) /\
  forall ws : worker_state,
  exists ws',
    initializer_of p (log_queue_of p) (task_initializer p)
      (dispatcher_loglevel w) ws
    = py_call (task_initializer p) ws' /\
    if use_threads p
    then sigmask ws'
         = (if hasattr_signal SIGBUS ws
            then sigmask ws ∪ {[ SIGBUS ]}
            else sigmask ws) /\
         root_handlers ws' = root_handlers ws
    else dispositions ws' !! SIGINT = Some SIG_IGN /\
         root_level ws' = dispatcher_loglevel w /\
         root_handlers ws' = [QueueHandler MultiprocessingQueue].
Proof.
  intros Htrue.
  split; [| split].
  { intros Htq. pose proof (exec_progress_pool_creates_pool p w Htq) as Hin.
    unfold worker_callback_of in Hin. rewrite Htrue in Hin. exact Hin. }
  { intros ev Hin Hev.
    pose proof (exec_progress_pool_only_pool p w ev Hin Hev) as Heq.
    unfold worker_callback_of in Heq. rewrite Htrue in Heq. exact Heq. }
  intros ws. unfold initializer_of, log_queue_of.
  destruct (use_threads p).
  - unfold thread_init.
    destruct (hasattr_signal SIGBUS ws); eexists; repeat split.
  - unfold process_init.
    change (hasattr_signal SIGBUS (signal_signal SIGINT SIG_IGN ws))
      with (hasattr_signal SIGBUS ws).
    destruct (hasattr_signal SIGBUS ws);
      (eexists; split; [reflexivity |]); simpl.
    + rewrite lookup_insert_ne by discriminate. rewrite lookup_insert_eq.
      repeat split.
    + rewrite lookup_insert_eq. repeat split.
Qed.

(** A setup callback that raises the log level and then fails: the pool is
    given that callback, and [process_init] fails with its exception on a
    worker that already logs to the queue, at the level the callback set. *)
Lemma given_callback_runs_after_setup_witness :
  In (EvPool ProcessPool 2 process_init (MultiprocessingQueue, init_fails, 30%Z))
     (trace (exec_progress_pool p_init_fails w_plain)) /\
  process_init MultiprocessingQueue init_fails 30 ws_posix
  = (Raise (RuntimeError "setup failed"),
     root_setLevel 40
       (snd (process_init MultiprocessingQueue _noop 30 ws_posix))).
Proof.
  destruct (given_callback_runs_after_setup p_init_fails w_plain eq_refl)
    as [Hpool _].
  split; [exact (Hpool eq_refl) | reflexivity].
Defined.

(** The run depends on [os.environ] only through whether
    [PYTEST_CURRENT_TEST] is non-empty. *)
Lemma exec_progress_pool_environ (p : params) (w : world)
    (env : gmap string string) :
  str_bool (environ_get env "PYTEST_CURRENT_TEST" "")
  = str_bool (environ_get (os_environ w) "PYTEST_CURRENT_TEST" "") ->
  exec_progress_pool p (with_environ env w) = exec_progress_pool p w.
Proof.
  intros Henv.
  destruct (setup_cases w) as [[Htq Hpl] | [[e Htq] | [Htq [e Hpl]]]].
  2: { rewrite (exec_progress_pool_tqdm_raises p w e Htq).
       apply exec_progress_pool_tqdm_raises. exact Htq. }
  2: { rewrite (exec_progress_pool_pool_raises p w e Htq Hpl).
       apply (exec_progress_pool_pool_raises p (with_environ env w) e Htq Hpl). }
  rewrite (exec_progress_pool_unfold p w Htq Hpl),
    (exec_progress_pool_unfold p (with_environ env w) Htq Hpl).
  change (imap_unordered (with_environ env w)) with (imap_unordered w).
  change (prologue p (with_environ env w)) with (prologue p w).
  destruct (outcome _) as [[]|e]; [reflexivity |].
  unfold epilogue, except_events, inside_pytest.
  cbn [os_environ with_environ]. rewrite Henv. reflexivity.
Qed.

(** X9: An empty [PYTEST_CURRENT_TEST] counts as an unset one, and no other
    variable of the environment changes anything in the run. *)
Theorem empty_pytest_variable_is_unset (p : params) (w : world) :
  exec_progress_pool p
    (with_environ (<["PYTEST_CURRENT_TEST" := ""]> (os_environ w)) w)
  = exec_progress_pool p
      (with_environ (delete "PYTEST_CURRENT_TEST" (os_environ w)) w) /\
  forall (k v : string),
    k <> "PYTEST_CURRENT_TEST" ->
    exec_progress_pool p (with_environ (<[k := v]> (os_environ w)) w)
    = exec_progress_pool p w.
Proof.
  split.
  - refine (exec_progress_pool_environ p
              (with_environ (delete "PYTEST_CURRENT_TEST" (os_environ w)) w)
              (<["PYTEST_CURRENT_TEST" := ""]> (os_environ w)) _).
    cbn [os_environ with_environ]. unfold environ_get.
    rewrite lookup_insert_eq, lookup_delete_eq. reflexivity.
  - intros k v Hk. apply exec_progress_pool_environ.
    unfold environ_get. rewrite lookup_insert_ne by exact Hk. reflexivity.
Qed.

(** * Further properties of the listener *)

Section ListenerFurther.

Variable sink : string -> log_record -> result unit.

Lemma handle_calls_app (tr1 tr2 : list levent) :
  handle_calls (tr1 ++ tr2) = handle_calls tr1 ++ handle_calls tr2.
Proof.
  induction tr1 as [|ev tr1 IH]; [reflexivity |].
  destruct ev; simpl; rewrite IH; reflexivity.
Qed.

(** What one pass over an item other than the sentinel does, when handling
    raises nothing but [Exception]s: it goes on, it has called the logger of
    a record once, and it has written the two diagnostics exactly when the
    item failed. *)
Lemma iteration_summary (item : qitem) :
  (forall l r e, sink l r = Raise e -> isinstance e cls_Exception = true) ->
  item <> QNone ->
  exists tr,
    listener_iteration sink item = (tr, Ok Continue) /\
    handle_calls tr = map (fun r => (name r, r)) (records_of [item]) /\
    count is_logging_problem tr = (if fails sink item then 1 else 0) /\
    count is_traceback tr = (if fails sink item then 1 else 0).
Proof.
  intros Hsink Hne. destruct item as [|r|repr]; [congruence | |].
  - unfold fails. destruct (sink (name r) r) as [[]|e] eqn:Hs.
    + rewrite (iteration_record_ok sink r Hs). eexists. repeat split.
    + rewrite (iteration_record_raise sink r e Hs (Hsink _ _ _ Hs)).
      eexists. repeat split.
  - rewrite iteration_object. eexists. repeat split.
Qed.

End ListenerFurther.

(** X10: More items on the queue do not change what the listener has done: a
    listener left waiting goes on with them where it was, and a listener
    that has stopped or died never looks at them. *)
Theorem listener_resumes (sink : string -> log_record -> result unit)
    (q1 q2 : list qitem) :
  log_listener sink (q1 ++ q2)
  = match snd (log_listener sink q1) with
    | Waiting =>
        (fst (log_listener sink q1) ++ fst (log_listener sink q2),
         snd (log_listener sink q2))
    | Stopped | Died _ => log_listener sink q1
    end.
Proof.
  induction q1 as [|item q1 IH].
  - simpl. destruct (log_listener sink q2). reflexivity.
  - rewrite <- app_comm_cons, !listener_cons.
    destruct (listener_iteration sink item) as [tr [[]|e]]; try reflexivity.
    rewrite IH. destruct (log_listener sink q1) as [tr1 [| |e]]; cbn [fst snd].
    + reflexivity.
    + rewrite app_assoc. reflexivity.
    + reflexivity.
Qed.

(** X11: With a logging configuration whose failures are [Exception]s, every
    record in front of the first sentinel is handed once, in queue order, to
    the logger its [name] names, also after earlier items have failed; no
    other record is handed to any logger. *)
Theorem listener_forwards_in_order
    (sink : string -> log_record -> result unit) (q : list qitem) :
  (forall l r e, sink l r = Raise e -> isinstance e cls_Exception = true) ->
  handle_calls (fst (log_listener sink q))
  = map (fun r => (name r, r)) (records_of (until_sentinel q)).
Proof.
  intros Hsink. induction q as [|item rest IH]; [reflexivity |].
  rewrite listener_cons.
  destruct item as [|r|repr] eqn:Hitem; [reflexivity | |].
  - destruct (iteration_summary sink (QRecord r) Hsink)
      as (tr & -> & Hcalls & _); [discriminate |].
    cbn [fst until_sentinel records_of map].
    rewrite handle_calls_app, Hcalls, IH. reflexivity.
  - destruct (iteration_summary sink (QObject repr) Hsink)
      as (tr & -> & Hcalls & _); [discriminate |].
    cbn [fst until_sentinel records_of map].
    rewrite handle_calls_app, Hcalls, IH. reflexivity.
Qed.

(** The demonstration queue: three loggers are called, the late record's
    is not. *)
Lemma listener_forwards_in_order_witness :
  handle_calls (fst (log_listener sink_fail_on_bad q_demo))
  = [ ("bad", rec_of "bad"); ("ocrmypdf", rec_of "ocrmypdf") ].
Proof.
  apply (listener_forwards_in_order sink_fail_on_bad q_demo).
  intros l r e. unfold sink_fail_on_bad.
  destruct (String.eqb l "bad"); intros [= <-]. reflexivity.
Defined.

(** X12: With a logging configuration whose failures are [Exception]s, the
    listener writes ["Logging problem"] and a traceback to [sys.stderr] once
    for each failing item in front of the first sentinel, and nothing for
    the items it handled. *)
Theorem listener_one_diagnostic_per_failure
    (sink : string -> log_record -> result unit) (q : list qitem) :
  (forall l r e, sink l r = Raise e -> isinstance e cls_Exception = true) ->
  count is_logging_problem (fst (log_listener sink q))
  = count (fails sink) (until_sentinel q) /\
  count is_traceback (fst (log_listener sink q))
  = count (fails sink) (until_sentinel q).
Proof.
  intros Hsink. induction q as [|item rest [IHp IHt]]; [split; reflexivity |].
  rewrite listener_cons.
  destruct item as [|r|repr] eqn:Hitem; [split; reflexivity | |].
  - destruct (iteration_summary sink (QRecord r) Hsink)
      as (tr & -> & _ & Hp & Ht); [discriminate |].
    cbn [fst until_sentinel count]. rewrite !count_app, Hp, Ht, IHp, IHt.
    split; reflexivity.
  - destruct (iteration_summary sink (QObject repr) Hsink)
      as (tr & -> & _ & Hp & Ht); [discriminate |].
    cbn [fst until_sentinel count]. rewrite !count_app, Hp, Ht, IHp, IHt.
    split; reflexivity.
Qed.

(** The demonstration queue: two failing items, two diagnostics. *)
Lemma listener_one_diagnostic_per_failure_witness :
  count is_logging_problem (fst (log_listener sink_fail_on_bad q_demo)) = 2 /\
  count is_traceback (fst (log_listener sink_fail_on_bad q_demo)) = 2.
Proof.
  apply (listener_one_diagnostic_per_failure sink_fail_on_bad q_demo).
  intros l r e. unfold sink_fail_on_bad.
  destruct (String.eqb l "bad"); intros [= <-]. reflexivity.
Defined.

(** X13: [except Exception] does not catch everything: when handling a record
    raises an exception that is no [Exception] ([SystemExit],
    [KeyboardInterrupt]), it leaves the loop; the listener ends without a
    diagnostic and without a sentinel, and reads nothing more. *)
Theorem listener_dies_on_base_exception
    (sink : string -> log_record -> result unit)
    (pre : list qitem) (r : log_record) (post : list qitem) (e : exn) :
  snd (log_listener sink pre) = Waiting ->
  sink (name r) r = Raise e ->
  isinstance e cls_Exception = false ->
  log_listener sink (pre ++ QRecord r :: post)
  = (fst (log_listener sink pre) ++ [LsGet (QRecord r); LsHandle (name r) r],
     Died e).
Proof.
  intros Hpre Hs He.
  rewrite listener_resumes, Hpre, listener_cons.
  rewrite (iteration_record_escape sink r e Hs He). reflexivity.
Qed.

(** A handler that calls [sys.exit()] on the second record: the sentinel
    behind it is never read. *)
Lemma listener_dies_on_base_exception_witness :
  log_listener sink_exit_on_bad
    ([QRecord (rec_of "ocrmypdf")] ++ QRecord (rec_of "bad") :: [QNone])
  = ([ LsGet (QRecord (rec_of "ocrmypdf"));
       LsHandle "ocrmypdf" (rec_of "ocrmypdf");
       LsGet (QRecord (rec_of "bad")); LsHandle "bad" (rec_of "bad") ],
     Died SystemExit).
Proof.
  apply (listener_dies_on_base_exception sink_exit_on_bad
           [QRecord (rec_of "ocrmypdf")] (rec_of "bad") [QNone] SystemExit);
    reflexivity.
Defined.

(** * Further properties of the loop and of the initializers *)

(** X5: A [StopIteration] raised by the completion callback is caught by the
    same clause as the iterator's own: the loop breaks and the call returns
    normally; the tasks that complete later are never pulled. *)
Theorem callback_stop_iteration_ends_quietly (p : params) (w : world)
    (pre : list value) (a v : value) (post : list value) :
  sigint_at w = None ->
  completion_order w (task_arguments p) = pre ++ a :: post ->
  Forall (completes p) pre ->
  task p a = Ok v ->
  py_bool (task_finished p) = true ->
  py_call (task_finished p) v = Raise StopIteration ->
  exec_progress_pool p w
  = (prologue p w
     ++ flat_map (pass_events p) pre
     ++ [EvNext; EvTaskFinished v]
     ++ teardown p ++ [EvTqdmExit; EvListenerJoin],
     Ok tt).
Proof.
  intros Hsig Horder Hpre Ha Hb Hcall.
  destruct (started_by_order w _ _ _ _ Horder) as [Htq Hpl].
  assert (pull_results (task p) (task_finished p)
            (imap_unordered w (task_arguments p))
          = (flat_map (pass_events p) pre ++ [EvNext; EvTaskFinished v],
             Ok tt)) as Hpull.
  { unfold imap_unordered. rewrite Hsig, Horder, map_app.
    rewrite (pull_results_prefix p pre _ Hpre). cbn [map].
    simpl pull_results.
    unfold loop_iteration, results_next, call_task_finished; simpl.
    rewrite Ha; simpl. rewrite Hb; simpl. rewrite Hcall. reflexivity. }
  rewrite (exec_progress_pool_unfold p w Htq Hpl), Hpull.
  cbn [trace outcome fst snd epilogue].
  rewrite <- !app_assoc. reflexivity.
Qed.

(** The callback raises [StopIteration] on the second result to arrive. *)
Lemma callback_stop_iteration_ends_quietly_witness :
  exec_progress_pool p_callback_stop w_plain
  = (prologue p_callback_stop w_plain
     ++ [EvNext; EvTaskFinished "c!"]
     ++ [EvNext; EvTaskFinished "b!"]
     ++ teardown p_callback_stop ++ [EvTqdmExit; EvListenerJoin],
     Ok tt).
Proof.
  apply (callback_stop_iteration_ends_quietly p_callback_stop w_plain
           ["c"] "b" "b!" ["a"]); try reflexivity.
  constructor; [| constructor].
  exists "c!". split; reflexivity.
Defined.



(** X17: a call in which [tqdm(...)] or the pool's constructor raises leaves
    with that exception from outside the [try] statement: the listener
    thread has been started, and the call asks for no result, puts no
    sentinel on the log queue, and neither terminates, closes nor joins a
    pool, nor joins the listener.  The listener, to which no sentinel comes,
    does not stop. *)
Theorem setup_failure_skips_teardown (p : params) (w : world) (e : exn)
    (sink : string -> log_record -> result unit) (q : list qitem) :
  tqdm_error w = Some e \/ (tqdm_error w = None /\ pool_error w = Some e) ->
  outcome (exec_progress_pool p w) = Raise e /\
  count is_listener_start (trace (exec_progress_pool p w)) = 1 /\
  count is_loop_event (trace (exec_progress_pool p w)) = 0 /\
  count is_pool_terminate (trace (exec_progress_pool p w)) = 0 /\
  count is_sentinel_put (trace (exec_progress_pool p w)) = 0 /\
  count is_pool_close (trace (exec_progress_pool p w)) = 0 /\
  count is_pool_join (trace (exec_progress_pool p w)) = 0 /\
  count is_listener_join (trace (exec_progress_pool p w)) = 0 /\
  (~ In QNone q -> snd (log_listener sink q) <> Stopped).
Proof.
  intros Hfail.
  split.
  { destruct Hfail as [Htq | [Htq Hpl]].
    - rewrite (exec_progress_pool_tqdm_raises p w e Htq). reflexivity.
    - rewrite (exec_progress_pool_pool_raises p w e Htq Hpl). reflexivity. }
  assert (tqdm_error w <> None \/ pool_error w <> None) as Hfail'.
  { destruct Hfail as [Htq | [_ Hpl]]; [left | right]; congruence. }
  destruct (setup_failed_calls p w Hfail')
    as (_ & H1 & H2 & H3 & H4 & H5 & H6 & H7).
  repeat (split; [assumption |]).
  intros Hnone Hst.
  destruct (listener_stopped_shape sink q Hst) as (pre & post & -> & _).
  apply Hnone, in_or_app. right. left. reflexivity.
Qed.

(** A call that asks for a pool of no workers: the pool's constructor
    raises [ValueError]. *)
Lemma setup_failure_skips_teardown_witness :
  outcome (exec_progress_pool p_no_workers w_pool_refuses)
  = Raise (ValueError "Number of processes must be at least 1") /\
  count is_listener_start
    (trace (exec_progress_pool p_no_workers w_pool_refuses)) = 1 /\
  count is_sentinel_put
    (trace (exec_progress_pool p_no_workers w_pool_refuses)) = 0.
Proof.
  destruct (setup_failure_skips_teardown p_no_workers w_pool_refuses
              (ValueError "Number of processes must be at least 1")
              sink_fail_on_bad [])
    as (Hout & Hstart & _ & _ & Hput & _).
  { right. split; reflexivity. }
  auto.
Defined.
